(** * Fractalis: the /state and /analytics controllers

    A shallow embedding of [fractalis/state/controller.py] and
    [fractalis/analytics/controller.py].  Request handlers become functions
    that take the Flask session and the redis store (or the celery broker)
    and return the response together with the new session and store; a
    Python exception that escapes a handler is an explicit [Raised]
    outcome.

    What the controllers import from modules that are not part of the
    sources at hand is a parameter: [AnalyticTask.parse_value],
    [get_data_state_for_task_id], the ETL handler, [re.sub], the order in
    which a [set] is listed, and the celery application.  A [str] is held
    as its UTF-8 bytes; numbers are the integers.  The value of
    [uuid4()] is an argument of [save_state].  The session is a record:
    the [before_request] hooks see to it that its keys exist. *)

From Stdlib Require Import Ascii.
From stdpp Require Import gmap strings list fin_maps sorting pretty.

Set Warnings "-register-all".

(** ** Python values and exceptions *)

Inductive exn := KeyError | TypeError | ValueError | AssertionError.

Inductive outcome (A : Type) :=
| Returned (a : A)
| Raised (e : exn).
Arguments Returned {A} a.
Arguments Raised {A} e.

Global Instance outcome_ret : MRet outcome := fun A a => Returned a.

Global Instance outcome_bind : MBind outcome := fun A B k m =>
  match m with
  | Returned a => k a
  | Raised e => Raised e
  end.

(** What [json.loads] produces and [json.dumps]/[jsonify] consume. *)
Inductive json :=
| JNull
| JBool (b : bool)
| JNum (n : Z)
| JStr (s : string)
| JList (l : list json)
| JDict (d : list (string * json)).

(** Keys of a Python dict held in the session: state ids are [str], the
    loop index of [enumerate] is an [int]; the two never compare equal. *)
Inductive pykey :=
| KStr (s : string)
| KInt (n : Z).

Global Instance pykey_eq_dec : EqDecision pykey.
Proof. solve_decision. Defined.

Global Instance pykey_countable : Countable pykey.
Proof.
  refine (inj_countable'
    (fun k => match k with KStr s => inl s | KInt n => inr n end)
    (fun x => match x with inl s => KStr s | inr n => KInt n end) _).
  intros [s|n]; reflexivity.
Defined.

Fixpoint assoc (k : string) (d : list (string * json)) : option json :=
  match d with
  | [] => None
  | (k', v) :: rest => if decide (k' = k) then Some v else assoc k rest
  end.

(** [obj[k]] for a string key [k]. *)
Definition py_getitem (obj : json) (k : string) : outcome json :=
  match obj with
  | JDict d =>
      match assoc k d with
      | Some v => Returned v
      | None => Raised KeyError
      end
  | _ => Raised TypeError
  end.

Fixpoint assoc_set (k : string) (v : json) (d : list (string * json))
  : list (string * json) :=
  match d with
  | [] => [(k, v)]
  | (k', v') :: rest =>
      if decide (k' = k) then (k', v) :: rest else (k', v') :: assoc_set k v rest
  end.

(** [obj[k] = v] for a string key [k]. *)
Definition py_setitem (obj : json) (k : string) (v : json) : outcome json :=
  match obj with
  | JDict d => Returned (JDict (assoc_set k v d))
  | _ => Raised TypeError
  end.

(** The characters of a [str] are its code points: in UTF-8 a byte
    [10xxxxxx] continues the character of the byte before it. *)
Definition continuation (c : ascii) : bool :=
  match c with
  | Ascii _ _ _ _ _ _ false true => true
  | _ => false
  end.

Fixpoint code_points (s : string) : list string :=
  match s with
  | EmptyString => []
  | String c tl =>
      match tl with
      | EmptyString => [String c EmptyString]
      | String c' _ =>
          if continuation c' then
            match code_points tl with
            | chunk :: rest => String c chunk :: rest
            | [] => [String c EmptyString]
            end
          else String c EmptyString :: code_points tl
      end
  end.

Definition chars (s : string) : list json := JStr <$> code_points s.

(** The items a [for] loop sees when it iterates over [obj]. *)
Definition py_iter (obj : json) : outcome (list json) :=
  match obj with
  | JList l => Returned l
  | JStr s => Returned (chars s)
  | JDict d => Returned ((fun kv => JStr kv.1) <$> d)
  | _ => Raised TypeError
  end.

(** ** The redis store

    The client is created with [decode_responses=True]: [redis.get] returns
    a [str] or [None].  A stored string is kept by what [json.loads] makes
    of it: [RJson j] is the text [json.dumps(j)], [RText s] is a text [s]
    that [json.loads] rejects. *)
Inductive rvalue :=
| RText (s : string)
| RJson (j : json).

Definition json_dumps (j : json) : rvalue := RJson j.

Definition json_loads (v : option rvalue) : outcome json :=
  match v with
  | None => Raised TypeError
  | Some (RText _) => Raised ValueError
  | Some (RJson j) => Returned j
  end.

(** Python truthiness of the result of [redis.get]: [None] and the empty
    string are falsy, and [json.dumps] never produces the empty string. *)
Definition truthy (v : option rvalue) : bool :=
  match v with
  | None => false
  | Some (RText EmptyString) => false
  | Some _ => true
  end.

Definition data_key (task_id : string) : string := "data:" +:+ task_id.
Definition state_key (state_id : string) : string := "state:" +:+ state_id.

(** ** Responses and the session *)

Definition response : Type := json * nat.

Definition status (r : response) : nat := r.2.
Definition body (r : response) : json := r.1.

Record session := {
  jobs : list string;
  data_tasks : list string;
  state_access : gmap pykey (list string)
}.

(** ** [re.findall('\$.+?\$', state)]

    A marker is a dollar, one or more characters other than a newline,
    taken lazily, and a dollar.  [lazy_until_dollar] is the lazy extension
    of [.+?] after its first character. *)

Definition dollar : ascii := "$"%char.
Definition newline : ascii := "010"%char.

Fixpoint lazy_until_dollar (s : string) : option (string * string) :=
  match s with
  | EmptyString => None
  | String c tl =>
      if decide (c = dollar) then Some (String c EmptyString, tl)
      else if decide (c = newline) then None
      else match lazy_until_dollar tl with
           | Some (m, rest) => Some (String c m, rest)
           | None => None
           end
  end.

(** The pattern anchored at the head of [s]: the marker and what follows. *)
Definition match_marker (s : string) : option (string * string) :=
  match s with
  | String d (String c tl) =>
      if decide (d = dollar) then
        if decide (c = newline) then None
        else match lazy_until_dollar tl with
             | Some (m, rest) => Some (String d (String c m), rest)
             | None => None
             end
      else None
  | _ => None
  end.

(** Leftmost, non-overlapping matches; the scan resumes after a match and
    one character further after a failure. *)
Fixpoint findall_fuel (fuel : nat) (s : string) : list string :=
  match fuel with
  | 0 => []
  | S n =>
      match s with
      | EmptyString => []
      | String _ tl =>
          match match_marker s with
          | Some (m, rest) => m :: findall_fuel n rest
          | None => findall_fuel n tl
          end
      end
  end.

Definition findall (s : string) : list string :=
  findall_fuel (String.length s) s.

(** ** Task ids

    What [parse_value] makes of a marker is a Python value of any JSON
    kind, a [json] here.  Only a value that can be hashed goes into a
    [set]: [None], a bool, a number or a text.  [task_id] are those
    values; a list or a dict is none of them, and [set] raises TypeError
    on it. *)
Inductive task_id :=
| IdNone
| IdBool (b : bool)
| IdNum (n : Z)
| IdStr (s : string).

Global Instance task_id_eq_dec : EqDecision task_id.
Proof. solve_decision. Defined.

Definition hashed (v : json) : option task_id :=
  match v with
  | JNull => Some IdNone
  | JBool b => Some (IdBool b)
  | JNum n => Some (IdNum n)
  | JStr s => Some (IdStr s)
  | JList _ | JDict _ => None
  end.

Definition id_json (i : task_id) : json :=
  match i with
  | IdNone => JNull
  | IdBool b => JBool b
  | IdNum n => JNum n
  | IdStr s => JStr s
  end.

(** [==] and [hash] take a bool for the number it is: two ids are one
    element of a set when their keys are equal. *)
Definition id_key (i : task_id) : task_id :=
  match i with
  | IdBool b => IdNum (if b then 1 else 0)
  | _ => i
  end.

(** ['{}'.format(i)]. *)
Definition id_text (i : task_id) : string :=
  match i with
  | IdNone => "None"
  | IdBool b => if b then "True" else "False"
  | IdNum n => pretty n
  | IdStr s => s
  end.

(** The elements of [set(l)]: of the ids that are equal, the first. *)
Fixpoint distinct_from (seen : list task_id) (l : list task_id)
  : list task_id :=
  match l with
  | [] => []
  | x :: rest =>
      if decide (id_key x ∈ seen) then distinct_from seen rest
      else x :: distinct_from (id_key x :: seen) rest
  end.

Definition distinct_ids (l : list task_id) : list task_id :=
  distinct_from [] l.

(** [list(set(l))] for ids: the elements of the set in the order that
    Python leaves to the hash function. *)
Class IdSetOrder := {
  set_to_list : list task_id → list task_id;
  set_to_list_perm : ∀ l, set_to_list l ≡ₚ distinct_ids l
}.

Definition first_seen_ids : IdSetOrder :=
  {| set_to_list := distinct_ids;
     set_to_list_perm := fun l => reflexivity (distinct_ids l) |}.

(** ** Externals of the /state controller

    [list(set(l))] keeps one copy of every element of [l], in an order
    that Python leaves to the hash function: any [list_set] with these two
    laws is a possible one. *)
Class SetOrder := {
  list_set : list string → list string;
  list_set_NoDup : ∀ l, NoDup (list_set l);
  list_set_elem : ∀ l x, x ∈ list_set l ↔ x ∈ l
}.

(** One such order: the last copy of every element, in the order of [l]. *)
Definition last_seen_order : SetOrder :=
  {| list_set := remove_dups;
     list_set_NoDup := NoDup_remove_dups;
     list_set_elem := elem_of_remove_dups |}.

(** The ETL handler of [fractalis.data.etlhandler]: [factory] builds the
    handler for a source system, [handle] submits one ETL per descriptor
    (reusing those of [data_tasks] when [use_existing]) and returns their
    task ids; it talks to celery and writes [data:] records. *)
Class ETLHandler (H : Type) := {
  etl_factory : json → json → json → outcome H;
  etl_handle : H → json → list string → bool → bool →
               gmap string rvalue → outcome (list string * gmap string rvalue)
}.

(** What [get_data_state_for_task_id] returns when it finds the record of
    a data task: a dict that carries the celery state of the ETL. *)
Record data_state := { etl_state : string; etl_message : json }.

Record payload := {
  p_state : string;    (* str(payload['state']) *)
  p_server : json;
  p_handler : json
}.

Definition error (msg : string) (code : nat) : response :=
  (JDict [("error", JStr msg)], code).

Section StateController.
Context {O : SetOrder} {IO : IdSetOrder} {H : Type} {E : ETLHandler H}.
(** [AnalyticTask.parse_value(match)[0]]: the task id inside a marker. *)
Variable parse_value : string → json.
(** [get_data_state_for_task_id(task_id, wait)]. *)
Variable get_data_state_for_task_id : string → bool → option data_state.
(** [re.sub(pattern, repl, string)]. *)
Variable re_sub : json → json → json → outcome json.

(** The task ids of a template, one per marker, before deduplication. *)
Definition marker_ids (state : string) : list json :=
  parse_value <$> findall state.

(** [list(set(task_ids))]: TypeError for an id that cannot be hashed. *)
Definition py_set (task_ids : list json) : outcome (list task_id) :=
  match mapM hashed task_ids with
  | Some ids => Returned (set_to_list ids)
  | None => Raised TypeError
  end.

Definition no_ids_error : string :=
  "This state cannot be saved because it contains no data task ids. " +:+
  "These are used to verify access to the state and " +:+
  "its potentially sensitive data.".

Definition descriptor_of (value : rvalue) : outcome json :=
  data_state ← json_loads (Some value);
  meta ← py_getitem data_state "meta";
  py_getitem meta "descriptor".

(** [except (ValueError, KeyError, TypeError)]. *)
Definition caught (e : exn) : bool :=
  match e with
  | ValueError | KeyError | TypeError => true
  | AssertionError => false
  end.

(** The loop of lines 44-58: [inl] is the early [return], [inr] the
    descriptors once the loop has run to its end. *)
Fixpoint collect_descriptors (redis : gmap string rvalue)
    (task_ids : list task_id) (descriptors : list json)
  : outcome (response + list json) :=
  match task_ids with
  | [] => Returned (inr descriptors)
  | task_id :: rest =>
      match redis !! data_key (id_text task_id) with
      | None =>
          Returned (inl (error
            ("Data task id is " +:+ id_text task_id +:+
             " could not be found in redis. State cannot be saved") 400))
      | Some value =>
          match descriptor_of value with
          | Returned d =>
              collect_descriptors redis rest (descriptors ++ [d])
          | Raised e =>
              if caught e then
                Returned (inl (error
                  ("Task with id " +:+ id_text task_id +:+
                   " was found in redis but it represents " +:+
                   "no valid data state. State cannot be saved.") 400))
              else Raised e
          end
      end
  end.

Definition meta_state_of (state : string) (p : payload)
    (task_ids : list task_id) (descriptors : list json) : json :=
  JDict [("state", JStr state);
         ("server", p_server p);
         ("handler", p_handler p);
         ("task_ids", JList (id_json <$> task_ids));
         ("descriptors", JList descriptors)].

(** [uuid] is the value [uuid4()] draws for this request. *)
Definition save_state (uuid : string) (p : payload)
    (redis : gmap string rvalue)
  : outcome (response * gmap string rvalue) :=
  let state := p_state p in
  let matches := findall state in
  let task_ids := parse_value <$> matches in
  task_ids ← py_set task_ids;
  if bool_decide (matches = []) then Returned (error no_ids_error 400, redis)
  else
    r ← collect_descriptors redis task_ids [];
    match r with
    | inl resp => Returned (resp, redis)
    | inr descriptors =>
        if bool_decide (length matches = length descriptors) then
          let meta_state := meta_state_of state p task_ids descriptors in
          Returned ((JDict [("state_id", JStr uuid)], 201),
                    <[state_key uuid := json_dumps meta_state]> redis)
        else Raised AssertionError
    end.

Definition with_grant (ses : session) (state_id : string)
    (dt task_ids : list string) : session :=
  {| jobs := jobs ses;
     data_tasks := dt;
     state_access := <[KStr state_id := task_ids]> (state_access ses) |}.

Definition request_state_access (state_id : string) (wait : bool)
    (auth : json) (ses : session) (redis : gmap string rvalue)
  : outcome (response * session * gmap string rvalue) :=
  let value := redis !! state_key state_id in
  if negb (truthy value) then
    Returned (error ("Could not find state associated with id " +:+ state_id)
                    404, ses, redis)
  else
    meta_state ← json_loads value;
    handler ← py_getitem meta_state "handler";
    server ← py_getitem meta_state "server";
    etl_handler ← etl_factory handler server auth;
    descriptors ← py_getitem meta_state "descriptors";
    '(task_ids, redis') ←
      etl_handle etl_handler descriptors (data_tasks ses) true wait redis;
    let dt := data_tasks ses ++ task_ids in
    let dt := list_set dt in
    Returned ((JStr EmptyString, 202),
              with_grant ses state_id dt task_ids, redis').

Definition access_not_requested : string :=
  "Cannot get state. Make sure to submit a POST request " +:+
  "to this very same URL containing credentials and server " +:+
  "data to launch access verification. Only after that a GET " +:+
  "request might or might not return you the saved state.".

Definition still_running : response :=
  (JDict [("message", JStr "ETLs are still running.")], 202).

Definition no_access : response :=
  error ("One or more ETLs failed or has unknown status. " +:+
         "Assuming no access to saved state.") 403.

(** The loop of lines 128-138: [Some] is the early [return], [None]
    means the loop ran to its end. *)
Fixpoint check_etls (wait : bool) (task_ids : list string)
  : option response :=
  match task_ids with
  | [] => None
  | task_id :: rest =>
      match get_data_state_for_task_id task_id wait with
      | Some ds =>
          if decide (etl_state ds = "SUBMITTED") then Some still_running
          else if decide (etl_state ds = "SUCCESS") then check_etls wait rest
          else Some no_access
      | None => Some no_access
      end
  end.

(** The ETL of [task_id] has a data state and its celery state is [st]. *)
Definition etl_state_is (st : string) (wait : bool) (task_id : string)
  : bool :=
  match get_data_state_for_task_id task_id wait with
  | Some ds => bool_decide (etl_state ds = st)
  | None => false
  end.

Definition succeeded : bool → string → bool := etl_state_is "SUCCESS".
Definition submitted : bool → string → bool := etl_state_is "SUBMITTED".

(** [session['state_access'][k]]. *)
Definition grants_getitem (sa : gmap pykey (list string)) (k : pykey)
  : outcome (list string) :=
  match sa !! k with
  | Some v => Returned v
  | None => Raised KeyError
  end.

(** The loop of lines 140-143; [i] is the counter of [enumerate].  The
    replacement is looked up in [session['state_access']] under [i]. *)
Fixpoint rewrite_state (sa : gmap pykey (list string)) (i : nat)
    (task_ids : list json) (meta_state : json) : outcome json :=
  match task_ids with
  | [] => Returned meta_state
  | task_id :: rest =>
      repl ← grants_getitem sa (KInt (Z.of_nat i));
      string ← py_getitem meta_state "state";
      new ← re_sub task_id (JList (JStr <$> repl)) string;
      meta_state' ← py_setitem meta_state "state" new;
      rewrite_state sa (S i) rest meta_state'
  end.

Definition get_state_data (state_id : string) (wait : bool)
    (ses : session) (redis : gmap string rvalue) : outcome response :=
  meta_state ← json_loads (redis !! state_key state_id);
  match state_access ses !! KStr state_id with
  | None => Returned (error access_not_requested 404)
  | Some grant =>
      match check_etls wait grant with
      | Some resp => Returned resp
      | None =>
          ids ← py_getitem meta_state "task_ids";
          task_ids ← py_iter ids;
          meta_state' ← rewrite_state (state_access ses) 0 task_ids meta_state;
          Returned (JDict [("state", meta_state')], 200)
      end
  end.

End StateController.

(** ** The /analytics controller

    The result a celery task left behind: the exception it died of (the
    name of its class and its [str]) or a value. *)
Inductive task_result :=
| Failed (type_name message : string)
| Value (v : json).

(** The celery application as the controller uses it: [C] is the state of
    the broker and result backend, [J] the registered analytics jobs. *)
Class Celery (C J : Type) := {
  job_factory : string → option J;       (* AnalyticsJob.factory *)
  delay : J → json → C → string * C;     (* job.delay of the args; its id *)
  wait_for : string → C → C;             (* async_result.get *)
  job_state : string → C → string;       (* async_result.state *)
  job_result : string → C → task_result; (* async_result.result *)
  revoke : string → bool → C → C         (* celery.control.revoke *)
}.

(** [l.remove(x)]: drops the first [x], [ValueError] when there is none. *)
Fixpoint list_remove (x : string) (l : list string) : outcome (list string) :=
  match l with
  | [] => Raised ValueError
  | y :: rest =>
      if decide (y = x) then Returned rest
      else rest' ← list_remove x rest; Returned (y :: rest')
  end.

Definition with_jobs (ses : session) (js : list string) : session :=
  {| jobs := js;
     data_tasks := data_tasks ses;
     state_access := state_access ses |}.

Definition no_matching_job : response :=
  (JDict [("error_msg", JStr "No matching job found.")], 404).

Definition result_json (r : task_result) : json :=
  match r with
  | Failed type_name message => JStr (type_name +:+ ": " +:+ message)
  | Value v => v
  end.

Section AnalyticsController.
Context {C J : Type} {Cel : Celery C J}.

Definition create_job (job_name : string) (args : json)
    (ses : session) (c : C) : response * session * C :=
  match job_factory job_name with
  | None =>
      ((JDict [("error_msg",
                JStr ("Job with name '" +:+ job_name +:+ "' not found."))],
        400), ses, c)
  | Some analytics_job =>
      let '(id, c') := delay analytics_job args c in
      ((JDict [("job_id", JStr id)], 201),
       with_jobs ses (jobs ses ++ [id]), c')
  end.

Definition get_job_details (job_id : string) (wait : bool)
    (ses : session) (c : C) : response * session * C :=
  if bool_decide (job_id ∉ jobs ses) then (no_matching_job, ses, c)
  else
    let c' := if wait then wait_for job_id c else c in
    let state := job_state job_id c' in
    let result := job_result job_id c' in
    ((JDict [("status", JStr state); ("result", result_json result)], 200),
     ses, c').

Definition cancel_job (job_id : string) (wait : bool)
    (ses : session) (c : C) : outcome (response * session * C) :=
  if bool_decide (job_id ∉ jobs ses) then Returned (no_matching_job, ses, c)
  else
    let c' := revoke job_id wait c in
    js ← list_remove job_id (jobs ses);
    Returned ((JDict [("job_id", JStr job_id)], 200), with_jobs ses js, c').

End AnalyticsController.

(** ** Predicates the statements use *)

(** [redis] holds a data state with a descriptor for [task_id]: the loop
    of [save_state] gets past this id. *)
Definition has_descriptor (redis : gmap string rvalue) (task_id : task_id)
  : bool :=
  match redis !! data_key (id_text task_id) with
  | Some value =>
      match descriptor_of value with
      | Returned _ => true
      | Raised _ => false
      end
  | None => false
  end.

(** The status code of a handler that returned, if it did. *)
Definition status_of (r : outcome response) : option nat :=
  match r with
  | Returned resp => Some (status resp)
  | Raised _ => None
  end.

(** Every key of the dict is a [str]. *)
Definition str_keyed (sa : gmap pykey (list string)) : Prop :=
  ∀ k, is_Some (sa !! k) → ∃ s, k = KStr s.

(** ** A small world to run the handlers in *)

(** A [parse_value] for markers that hold the bare id: the text between
    the two dollars (value[1:-1]). *)
Fixpoint drop_last (s : string) : string :=
  match s with
  | EmptyString => EmptyString
  | String c EmptyString => EmptyString
  | String c tl => String c (drop_last tl)
  end.

Definition between_dollars (value : string) : string :=
  match value with
  | EmptyString => EmptyString
  | String _ tl => drop_last tl
  end.

(** A [parse_value] for a few markers: the text between the dollars, but
    [[1]] is the list of 1, [1] the number and [true] the bool. *)
Definition sample_parse_value (value : string) : json :=
  let text := between_dollars value in
  if decide (text = "[1]") then JList [JNum 1]
  else if decide (text = "1") then JNum 1
  else if decide (text = "true") then JBool true
  else JStr text.

Definition descriptor_record (d : json) : rvalue :=
  json_dumps (JDict [("meta", JDict [("descriptor", d)])]).

(** Two finished extractions [A] and [B] and a record that is no data
    state. *)
Definition sample_redis : gmap string rvalue :=
  <["data:A" := descriptor_record (JStr "A")]>
  (<["data:B" := descriptor_record (JStr "B")]>
  (<["data:X" := RText "not json"]> ∅)).

Definition sample_payload (state : string) : payload :=
  {| p_state := state; p_server := JStr "srv"; p_handler := JStr "test" |}.

(** The ETLs of the session: [A'] and [B'] succeeded, [R'] is still in the
    queue, [F'] failed; nothing is known of any other id. *)
Definition sample_data_state (task_id : string) (wait : bool)
  : option data_state :=
  if decide (task_id = "A'") then
    Some {| etl_state := "SUCCESS"; etl_message := JNull |}
  else if decide (task_id = "B'") then
    Some {| etl_state := "SUCCESS"; etl_message := JNull |}
  else if decide (task_id = "R'") then
    Some {| etl_state := "SUBMITTED"; etl_message := JNull |}
  else if decide (task_id = "F'") then
    Some {| etl_state := "FAILURE"; etl_message := JStr "KeyError: x" |}
  else None.

(** A handler that derives the task id of a descriptor by priming it. *)
Fixpoint primed (descriptors : list json) : outcome (list string) :=
  match descriptors with
  | [] => Returned []
  | JStr d :: rest => ids ← primed rest; Returned ((d +:+ "'") :: ids)
  | _ :: _ => Raised TypeError
  end.

Definition priming_handler : ETLHandler unit :=
  {| etl_factory := fun _ _ _ => Returned ();
     etl_handle := fun _ descriptors _ _ _ redis =>
       ds ← py_iter descriptors;
       ids ← primed ds;
       Returned (ids, redis) |}.

(** A [re.sub] for patterns without metacharacters is not needed to run
    the samples; this one leaves the string as it is. *)
Definition re_sub_keep (pattern repl string : json) : outcome json :=
  Returned string.

Definition empty_session : session :=
  {| jobs := []; data_tasks := []; state_access := ∅ |}.

(** The state saved from a template with the markers [$A$] and [$B$]. *)
Definition two_markers : payload := sample_payload "{x: $A$, y: $B$}".

Definition two_markers_state : json :=
  meta_state_of (p_state two_markers) two_markers
    [IdStr "A"; IdStr "B"] [JStr "A"; JStr "B"].

Definition saved_redis : gmap string rvalue :=
  <[state_key "u1" := json_dumps two_markers_state]> sample_redis.

Definition created_u1 : response := (JDict [("state_id", JStr "u1")], 201).

(** A session whose grant for [state_id] is [grant]. *)
Definition granted (state_id : string) (grant : list string) : session :=
  {| jobs := []; data_tasks := grant;
     state_access := <[KStr state_id := grant]> ∅ |}.

(** A session that was granted [u1] before, with other ETLs. *)
Definition old_session : session :=
  {| jobs := []; data_tasks := ["A'"; "old"];
     state_access := <[KStr "u1" := ["old"]]> (<[KStr "u0" := ["A'"]]> ∅) |}.

Definition renewed_session : session :=
  {| jobs := []; data_tasks := ["old"; "A'"; "B'"];
     state_access := <[KStr "u1" := ["A'"; "B'"]]> (state_access old_session) |}.

Definition accepted : response := (JStr EmptyString, 202).

(** A broker that hands out ids from a supply and remembers what it was
    asked to revoke. *)
Record broker := {
  supply : list string;
  tasks : list (string * (string * task_result));
  revoked : list string
}.

Fixpoint task_of (id : string) (ts : list (string * (string * task_result)))
  : string * task_result :=
  match ts with
  | [] => ("PENDING", Value JNull)
  | (id', t) :: rest => if decide (id' = id) then t else task_of id rest
  end.

Definition sample_celery : Celery broker string :=
  {| job_factory := fun name =>
       if decide (name = "compute-pca") then Some name else None;
     delay := fun job args c =>
       match supply c with
       | [] => ("none", c)
       | id :: rest =>
           (id, {| supply := rest;
                   tasks := (id, ("SUBMITTED", Value JNull)) :: tasks c;
                   revoked := revoked c |})
       end;
     wait_for := fun id c => c;
     job_state := fun id c => (task_of id (tasks c)).1;
     job_result := fun id c => (task_of id (tasks c)).2;
     revoke := fun id wait c =>
       {| supply := supply c; tasks := tasks c;
          revoked := id :: revoked c |} |}.

Definition sample_broker : broker :=
  {| supply := ["j2"; "j3"];
     tasks := [("j1", ("FAILURE", Failed "ValueError" "bad matrix"))];
     revoked := [] |}.

(** ** Further definitions

    [c in s] for a character and a text. *)
Fixpoint has_char (c : ascii) (s : string) : bool :=
  match s with
  | EmptyString => false
  | String c' tl => if decide (c' = c) then true else has_char c tl
  end.

(** The data state that [redis] holds for [task_id] carries the descriptor
    [d]. *)
Definition descriptor_in (redis : gmap string rvalue) (task_id : task_id)
    (d : json) : Prop :=
  ∃ value, redis !! data_key (id_text task_id) = Some value ∧
           descriptor_of value = Returned d.

(** The Flask session as [prepare_session] of the /analytics blueprint
    sees it, before the handlers: the [permanent] flag and the keys that
    are set. *)
Record flask_session := {
  permanent : bool;
  session_keys : gmap string json
}.

Definition prepare_session (s : flask_session) : flask_session :=
  {| permanent := true;
     session_keys :=
       if bool_decide (session_keys s !! "jobs" = None)
       then <["jobs" := JList []]> (session_keys s)
       else session_keys s |}.

(** ** The clustering task, [fractalis/analytics/tasks/heatmap/cluster.py]

    What a task raises: the [ValueError]s of the module with their
    messages, a [KeyError] or [TypeError] of a subscript that nothing
    catches (the [IndexError] is for the ETL further down), and whatever
    a call into pandas, numpy or scipy raised. *)
Inductive task_exn :=
| TaskValueError (msg : string)
| TaskKeyError
| TaskTypeError
| TaskIndexError
| LibraryError.

Inductive tried (A : Type) :=
| Fine (a : A)
| Thrown (e : task_exn).
Arguments Fine {A} a.
Arguments Thrown {A} e.

Global Instance tried_ret : MRet tried := fun A a => Fine a.

Global Instance tried_bind : MBind tried := fun A B k m =>
  match m with
  | Fine a => k a
  | Thrown e => Thrown e
  end.

(** The data frames and the clustering routines the task calls.
    [kmeans2] starts from points it draws at random: the draw is an
    argument. *)
Class Frames (F : Type) := {
  read_json : string → option F;     (* pd.read_json; None when it raised *)
  fill_medians : F → tried F;        (* df.T.fillna(df.median(axis=1)).T *)
  transposed : F → F;                (* df.T *)
  column_names : F → list json;      (* list(df) *)
  hclust_labels : F → json → json → json → tried (list Z);
                                     (* linkage, cut_tree, first column *)
  kmeans_labels : nat → F → json → tried (list Z)
                                     (* kmeans2 of the float array, [1] *)
}.

(** [Counter(cluster)[v]]. *)
Fixpoint cluster_count (cluster : list Z) (v : Z) : nat :=
  match cluster with
  | [] => 0
  | x :: rest =>
      if decide (x = v) then S (cluster_count rest v) else cluster_count rest v
  end.

(** [sorted(l, key=key, reverse=True)]: the greatest key first, and
    elements of equal key in the order they had.  [insert_by] puts [x],
    which came before all of [l], behind the elements of greater key. *)
Fixpoint insert_by {A} (key : A → nat) (x : A) (l : list A) : list A :=
  match l with
  | [] => [x]
  | y :: rest =>
      if decide (key x < key y) then y :: insert_by key x rest else x :: l
  end.

Definition sorted_reverse {A} (key : A → nat) (l : list A) : list A :=
  foldr (insert_by key) [] l.

(** The loop of lines 77-82 and 116-121 from its second round on: [c] is
    the counter and [prev] is [cluster[i-1]]. *)
Fixpoint relabel_from (c : nat) (prev : Z) (cluster : list Z) : list nat :=
  match cluster with
  | [] => []
  | v :: rest =>
      let c' := if decide (v ≠ prev) then S c else c in
      c' :: relabel_from c' v rest
  end.

Definition relabeled_cluster (cluster : list Z) : list nat :=
  match cluster with
  | [] => []
  | v :: rest => 0 :: relabel_from 0 v rest
  end.

(** Lines 70-84 and 109-123: the names and the labels, the elements of
    the biggest cluster first. *)
Definition sorted_cluster (names : list json) (cluster : list Z)
  : list (json * Z) :=
  sorted_reverse (fun x => cluster_count cluster x.2) (zip names cluster).

Definition by_cluster_size (names : list json) (cluster : list Z)
  : list json * list nat :=
  let sc := sorted_cluster names cluster in
  (sc.*1, relabeled_cluster (sc.*2)).

Definition labels_json (cluster : list nat) : json :=
  JList ((fun c => JNum (Z.of_nat c)) <$> cluster).

Definition clustering_result (rows cols : list json * list nat) : json :=
  JDict [("row_names", JList rows.1);
         ("col_names", JList cols.1);
         ("row_cluster", labels_json rows.2);
         ("col_cluster", labels_json cols.2)].

(** [options[k]] inside a [try] whose [except KeyError] raises the
    [ValueError] with [msg]. *)
Definition mandatory (options : json) (k msg : string) : tried json :=
  match py_getitem options k with
  | Returned v => Fine v
  | Raised KeyError => Thrown (TaskValueError msg)
  | Raised TypeError => Thrown TaskTypeError
  | Raised _ => Thrown LibraryError
  end.

Definition hclust_mandatory : string :=
  "'method', 'metric', 'n_row_clusters', " +:+
  "and 'n_col_clusters' are mandatory parameters to " +:+
  "perform a hierarchical clustering.".

Definition kmeans_mandatory : string :=
  "'n_row_centroids' and 'n_col_centroids' are mandatory " +:+
  "parameters to perform a kmeans clustering.".

Module ClusteringTask.
Section Task.
Context {F : Type} {Fr : Frames F}.

Definition _hclust (df : F) (method metric n_clusters : json)
  : tried (list json * list nat) :=
  let names := column_names df in
  cluster ← hclust_labels df method metric n_clusters;
  Fine (by_cluster_size names cluster).

Definition hclust (df : F) (options : json) : tried json :=
  method ← mandatory options "method" hclust_mandatory;
  metric ← mandatory options "metric" hclust_mandatory;
  n_row_clusters ← mandatory options "n_row_clusters" hclust_mandatory;
  n_col_clusters ← mandatory options "n_col_clusters" hclust_mandatory;
  rows ← _hclust (transposed df) method metric n_row_clusters;
  cols ← _hclust df method metric n_col_clusters;
  Fine (clustering_result rows cols).

Definition _kmeans (draw : nat) (df : F) (n_centroids : json)
  : tried (list json * list nat) :=
  let names := column_names df in
  cluster ← kmeans_labels draw df n_centroids;
  Fine (by_cluster_size names cluster).

Definition kmeans (draws : nat * nat) (df : F) (options : json)
  : tried json :=
  n_row_centroids ← mandatory options "n_row_centroids" kmeans_mandatory;
  n_col_centroids ← mandatory options "n_col_centroids" kmeans_mandatory;
  rows ← _kmeans draws.1 (transposed df) n_row_centroids;
  cols ← _kmeans draws.2 df n_col_centroids;
  Fine (clustering_result rows cols).

Definition main (draws : nat * nat) (df : string) (cluster_algo : string)
    (options : json) : tried json :=
  match read_json df with
  | None => Thrown (TaskValueError "Failed to parse string to data frame.")
  | Some df =>
      df ← fill_medians df;
      if decide (cluster_algo = "hclust") then hclust df options
      else if decide (cluster_algo = "kmeans") then kmeans draws df options
      else Thrown (TaskValueError
                     ("Algorithm not implemented: '" +:+ cluster_algo +:+ "'"))
  end.

End Task.
End ClusteringTask.

(** ** The highdim ETL, [fractalis/data/etls/transmart/etl_highdim.py]

    The raw data is what the source system answered, parsed: a Python
    value.  Floats are carried and never computed with: [R] stands for
    them. *)
Inductive pyval (R : Type) :=
| VNone
| VBool (b : bool)
| VInt (n : Z)
| VFloat (x : R)
| VStr (s : string)
| VList (l : list (pyval R))
| VDict (d : list (string * pyval R)).
Arguments VNone {R}.
Arguments VBool {R} b.
Arguments VInt {R} n.
Arguments VFloat {R} x.
Arguments VStr {R} s.
Arguments VList {R} l.
Arguments VDict {R} d.

(** The position that the index [n] has in a sequence of length [len]:
    a negative index counts from the end. *)
Definition py_index (n : Z) (len : nat) : option nat :=
  let m := if decide (n < 0)%Z then (n + Z.of_nat len)%Z else n in
  if decide (0 ≤ m < Z.of_nat len)%Z then Some (Z.to_nat m) else None.

Fixpoint dict_get {R} (k : string) (d : list (string * pyval R))
  : option (pyval R) :=
  match d with
  | [] => None
  | (k', v) :: rest => if decide (k' = k) then Some v else dict_get k rest
  end.

Definition list_at {R} (l : list (pyval R)) (n : Z) : tried (pyval R) :=
  match py_index n (length l) with
  | Some i =>
      match l !! i with
      | Some v => Fine v
      | None => Thrown TaskIndexError
      end
  | None => Thrown TaskIndexError
  end.

Definition str_at {R} (s : string) (n : Z) : tried (pyval R) :=
  match py_index n (length (code_points s)) with
  | Some i =>
      match code_points s !! i with
      | Some c => Fine (VStr c)
      | None => Thrown TaskIndexError
      end
  | None => Thrown TaskIndexError
  end.

(** [obj[key]]: the keys of a parsed dict are strings, a list or a dict
    is no key at all, a sequence takes an int or a bool. *)
Definition subscript {R} (obj key : pyval R) : tried (pyval R) :=
  match obj with
  | VDict d =>
      match key with
      | VStr k =>
          match dict_get k d with
          | Some v => Fine v
          | None => Thrown TaskKeyError
          end
      | VList _ | VDict _ => Thrown TaskTypeError
      | _ => Thrown TaskKeyError
      end
  | VList l =>
      match key with
      | VInt n => list_at l n
      | VBool b => list_at l (if b then 1 else 0)
      | _ => Thrown TaskTypeError
      end
  | VStr s =>
      match key with
      | VInt n => str_at s n
      | VBool b => str_at s (if b then 1 else 0)
      | _ => Thrown TaskTypeError
      end
  | _ => Thrown TaskTypeError
  end.

Definition str_chars {R} (s : string) : list (pyval R) :=
  VStr <$> code_points s.

(** The items of [for entry in obj]. *)
Definition iterate {R} (obj : pyval R) : tried (list (pyval R)) :=
  match obj with
  | VList l => Fine l
  | VStr s => Fine (str_chars s)
  | VDict d => Fine ((fun kv => VStr kv.1) <$> d)
  | _ => Thrown TaskTypeError
  end.

(** [value == 'text']. *)
Definition is_str {R} (v : pyval R) (text : string) : bool :=
  match v with
  | VStr s => bool_decide (s = text)
  | _ => false
  end.

Module HighdimETL.
Section ETL.
Context {R : Type}.

Definition can_handle (handler : string) (descriptor : pyval R)
  : tried bool :=
  if decide (handler = "transmart") then
    data_type ← subscript descriptor (VStr "data_type");
    Fine (is_str data_type "highdim")
  else Fine false.

(** One round of the loop of lines 28-32: the row [[id, value]]. *)
Definition row_of (raw_data entry : pyval R) : tried (pyval R * pyval R) :=
  dims ← subscript entry (VStr "dimensionIndexes");
  idx ← subscript dims (VInt 2);
  elements ← subscript raw_data (VStr "dimensionElements");
  patients ← subscript elements (VStr "patient");
  patient ← subscript patients idx;
  id ← subscript patient (VStr "inTrialId");
  value ← subscript entry (VStr "numericValue");
  Fine (id, value).

Fixpoint rows_of (raw_data : pyval R) (cells : list (pyval R))
    (rows : list (pyval R * pyval R)) : tried (list (pyval R * pyval R)) :=
  match cells with
  | [] => Fine rows
  | entry :: rest =>
      row ← row_of raw_data entry;
      rows_of raw_data rest (rows ++ [row])
  end.

(** The rows that are handed to [DataFrame] with the columns [id] and
    [value]. *)
Definition transform (raw_data descriptor : pyval R)
  : tried (list (pyval R * pyval R)) :=
  cells ← subscript raw_data (VStr "cells");
  entries ← iterate cells;
  rows_of raw_data entries [].

End ETL.
End HighdimETL.

(** ** Samples for the clustering task

    Three columns in the clusters 5, 7 and 7, and a frame that is its
    columns with their clusters. *)
Definition sample_names : list json := [JStr "p"; JStr "q"; JStr "r"].
Definition sample_cluster : list Z := [5; 7; 7]%Z.

Definition sample_frames : Frames (list (json * Z)) :=
  {| read_json := fun text =>
       if decide (text = "frame") then Some (zip sample_names sample_cluster)
       else None;
     fill_medians := fun df => Fine df;
     transposed := fun df => df;
     column_names := fun df => df.*1;
     hclust_labels := fun df _ _ _ => Fine (df.*2);
     kmeans_labels := fun _ df _ => Fine (df.*2) |}.


(** ** Samples for the highdim ETL

    Two patients and cells that point at them; integers stand for the
    floats. *)
Definition sample_patients : list (pyval Z) :=
  [VDict [("inTrialId", VStr "P1")]; VDict [("inTrialId", VStr "P2")]].

Definition sample_cell (patient : Z) (value : Z) : pyval Z :=
  VDict [("dimensionIndexes", VList [VInt 0; VInt 0; VInt patient]);
         ("numericValue", VFloat value)].

Definition cell_without_value : pyval Z :=
  VDict [("dimensionIndexes", VList [VInt 0; VInt 0; VInt 1])].

Definition sample_elements : pyval Z :=
  VDict [("patient", VList sample_patients)].

Definition sample_raw_data (cells : list (pyval Z)) : pyval Z :=
  VDict [("cells", VList cells); ("dimensionElements", sample_elements)].

(** * Properties *)

(** ** The marker scan *)

Lemma lazy_until_dollar_shorter s m rest :
  lazy_until_dollar s = Some (m, rest) →
  String.length rest < String.length s.
Proof.
  revert m rest. induction s as [|c tl IH]; intros m rest; simpl; [done|].
  case_decide; [intros [= <- <-]; lia|].
  case_decide; [done|].
  destruct (lazy_until_dollar tl) as [[m' rest']|] eqn:Htl; [|done].
  intros [= <- <-]. specialize (IH _ _ eq_refl). lia.
Qed.

Lemma match_marker_shorter s m rest :
  match_marker s = Some (m, rest) →
  S (String.length rest) < String.length s.
Proof.
  destruct s as [|d [|c tl]]; simpl; try done.
  case_decide; [|done]. case_decide; [done|].
  destruct (lazy_until_dollar tl) as [[m' rest']|] eqn:Htl; [|done].
  intros [= <- <-]. apply lazy_until_dollar_shorter in Htl. lia.
Qed.

(** A marker is cut off the head of the text, and it is a dollar, at
    least one character, and a dollar. *)
Lemma lazy_until_dollar_prefix s m rest :
  lazy_until_dollar s = Some (m, rest) →
  s = m +:+ rest ∧ ∃ body, m = body +:+ String dollar EmptyString.
Proof.
  revert m rest. induction s as [|c tl IH]; intros m rest; simpl; [done|].
  case_decide as Hc.
  { intros [= <- <-]. subst c. split; [done|]. by exists EmptyString. }
  case_decide; [done|].
  destruct (lazy_until_dollar tl) as [[m' rest']|] eqn:Htl; [|done].
  intros [= <- <-]. destruct (IH _ _ eq_refl) as (-> & body & ->).
  split; [done|]. by exists (String c body).
Qed.

Lemma match_marker_prefix s m rest :
  match_marker s = Some (m, rest) →
  s = m +:+ rest ∧
  ∃ c body, c ≠ newline ∧
            m = String dollar (String c (body +:+ String dollar EmptyString)).
Proof.
  destruct s as [|d [|c tl]]; simpl; try done.
  case_decide as Hd; [|done]. case_decide as Hc; [done|].
  destruct (lazy_until_dollar tl) as [[m' rest']|] eqn:Htl; [|done].
  intros [= <- <-]. apply lazy_until_dollar_prefix in Htl as (-> & body & ->).
  subst d. split; [done|]. by exists c, body.
Qed.

(** The fuel [findall] starts with is enough: more of it changes nothing. *)
Lemma findall_fuel_irrelevant n m s :
  String.length s ≤ n → String.length s ≤ m →
  findall_fuel n s = findall_fuel m s.
Proof.
  revert m s. induction n as [|n IH]; intros m s Hn Hm.
  - destruct s; simpl in *; [by destruct m | lia].
  - destruct m as [|m]; [destruct s; simpl in *; [done | lia]|].
    destruct s as [|c tl]; [done|].
    cbn [findall_fuel].
    destruct (match_marker (String c tl)) as [[mk rest]|] eqn:Hm'.
    + apply match_marker_shorter in Hm'. simpl in *.
      f_equal. apply IH; lia.
    + simpl in *. apply IH; lia.
Qed.

Lemma findall_fuel_enough n s :
  String.length s ≤ n → findall_fuel n s = findall s.
Proof. intros Hn. by apply findall_fuel_irrelevant. Qed.

Example findall_two : findall "{a: $A$, b: $B$}" = ["$A$"; "$B$"].
Proof. reflexivity. Qed.

Example findall_lazy : findall "$$a$b$" = ["$$a$"].
Proof. reflexivity. Qed.

Example findall_newline : findall ("$a" +:+ String newline "b$c$") = ["$c$"].
Proof. reflexivity. Qed.

Example findall_empty_marker : findall "$$ and $" = ["$$ and $"].
Proof. reflexivity. Qed.

(** ** [list(set(l))] for task ids *)

Lemma distinct_from_length_le seen l :
  length (distinct_from seen l) ≤ length l.
Proof.
  revert seen. induction l as [|x l IH]; intros seen; simpl; [done|].
  case_decide; simpl;
    [specialize (IH seen) | specialize (IH (id_key x :: seen))]; lia.
Qed.

Lemma distinct_from_same seen l :
  NoDup (id_key <$> l) → (∀ x, x ∈ l → id_key x ∉ seen) →
  distinct_from seen l = l.
Proof.
  revert seen. induction l as [|x l IH]; intros seen Hnd Hseen; simpl; [done|].
  rewrite fmap_cons in Hnd. apply NoDup_cons in Hnd as [Hx Hnd].
  case_decide as Hin.
  { exfalso. apply (Hseen x); [left | done]. }
  f_equal. apply IH; [done|].
  intros y Hy [Hyx|Hys]%elem_of_cons.
  - apply Hx. rewrite <- Hyx. by apply list_elem_of_fmap_2.
  - apply (Hseen y); [by right | done].
Qed.

Lemma distinct_from_full seen l :
  length (distinct_from seen l) = length l →
  NoDup (id_key <$> l) ∧ ∀ x, x ∈ l → id_key x ∉ seen.
Proof.
  revert seen. induction l as [|x l IH]; intros seen; simpl.
  { intros _. split; [constructor | by intros ? ?%elem_of_nil]. }
  case_decide as Hin; simpl.
  { pose proof (distinct_from_length_le seen l). lia. }
  intros [= Hlen]. destruct (IH _ Hlen) as [Hnd Hseen]. split.
  - constructor; [|done].
    intros (y & Hyx & Hy)%list_elem_of_fmap.
    apply (Hseen y Hy). rewrite <- Hyx. left.
  - intros z [->|Hz]%elem_of_cons; [done|].
    intros Hzs. apply (Hseen z Hz). by right.
Qed.

(** Ids that are pairwise different stay as they are. *)
Lemma distinct_ids_same l : NoDup (id_key <$> l) → distinct_ids l = l.
Proof. intros Hnd. apply distinct_from_same; [done|]. by intros ? _ ?%elem_of_nil. Qed.

(** Two equal ids make the set smaller than the list. *)
Lemma distinct_ids_shorter l :
  ¬ NoDup (id_key <$> l) → length (distinct_ids l) < length l.
Proof.
  intros Hdup. pose proof (distinct_from_length_le [] l) as Hle.
  destruct (decide (length (distinct_ids l) = length l)) as [Heq|];
    [|unfold distinct_ids in *; lia].
  by apply distinct_from_full in Heq as [? _].
Qed.

Lemma forallb_Permutation {A} (f : A → bool) l1 l2 :
  l1 ≡ₚ l2 → forallb f l1 = forallb f l2.
Proof.
  induction 1 as [|x l1 l2 _ IH|x y l|l1 l2 l3 _ IH1 _ IH2]; simpl;
    [done | congruence | by destruct (f x), (f y) | congruence].
Qed.

(** ** [save_state] *)

Lemma descriptor_of_caught value e :
  descriptor_of value = Raised e → caught e = true.
Proof.
  unfold descriptor_of. destruct value as [s|j]; simpl; [by intros [= <-]|].
  destruct j as [| | | | |d]; simpl; try by intros [= <-].
  destruct (assoc "meta" d) as [meta|]; simpl; [|by intros [= <-]].
  destruct meta as [| | | | |m]; simpl; try by intros [= <-].
  destruct (assoc "descriptor" m); simpl; [done | by intros [= <-]].
Qed.

(** [json.loads(value)['meta']['descriptor']] returns for the text of a
    dict whose [meta] is a dict with a [descriptor], and for nothing
    else. *)
Lemma descriptor_of_Returned value d :
  descriptor_of value = Returned d ↔
  ∃ data meta, value = RJson (JDict data) ∧
               assoc "meta" data = Some (JDict meta) ∧
               assoc "descriptor" meta = Some d.
Proof.
  unfold descriptor_of. split.
  - destruct value as [s|j]; simpl; [done|].
    destruct j as [| | | | |data]; simpl; try done.
    destruct (assoc "meta" data) as [meta|] eqn:Hmeta; simpl; [|done].
    destruct meta as [| | | | |m]; simpl; try done.
    destruct (assoc "descriptor" m) as [d'|] eqn:Hd; simpl; [|done].
    intros [= <-]. by exists data, m.
  - intros (data & meta & -> & Hmeta & Hd). simpl.
    rewrite Hmeta. simpl. by rewrite Hd.
Qed.

Lemma has_descriptor_spec redis task_id :
  has_descriptor redis task_id = true ↔
  ∃ value d, redis !! data_key (id_text task_id) = Some value ∧
             descriptor_of value = Returned d.
Proof.
  unfold has_descriptor.
  destruct (redis !! data_key (id_text task_id)) as [value|].
  - destruct (descriptor_of value) as [d|e] eqn:Hd.
    + split; [intros _; by exists value, d | done].
    + split; [done|]. intros (v & d & Hv & Hd'). congruence.
  - split; [done|]. by intros (? & ? & ? & ?).
Qed.

(** The loop either meets an id without a usable data state and answers
    400, or collects one descriptor per id; it never raises. *)
Lemma collect_descriptors_total redis task_ids descriptors :
  (forallb (has_descriptor redis) task_ids = true ∧
   ∃ ds, collect_descriptors redis task_ids descriptors = Returned (inr ds) ∧
         length ds = length descriptors + length task_ids) ∨
  (forallb (has_descriptor redis) task_ids = false ∧
   ∃ resp, collect_descriptors redis task_ids descriptors = Returned (inl resp) ∧
           status resp = 400).
Proof.
  revert descriptors.
  induction task_ids as [|task_id rest IH]; intros descriptors; simpl.
  { left. split; [done|]. eexists. split; [done|]. lia. }
  destruct (has_descriptor redis task_id) eqn:Hd; simpl.
  - apply has_descriptor_spec in Hd as (value & d & -> & ->).
    destruct (IH (descriptors ++ [d])) as [(Hall & ds & -> & Hlen)
                                          |(Hall & resp & -> & Hst)].
    + left. split; [done|]. eexists. split; [done|].
      rewrite length_app in Hlen. simpl in Hlen. lia.
    + right. eauto.
  - right. split; [done|].
    destruct (redis !! data_key (id_text task_id)) as [value|] eqn:Hv;
      [|by eexists].
    destruct (descriptor_of value) as [d|e] eqn:He.
    + assert (has_descriptor redis task_id = true) as Hd'
        by (apply has_descriptor_spec; eauto).
      congruence.
    + rewrite (descriptor_of_caught _ _ He). by eexists.
Qed.

(** The descriptors the loop collects are, position by position, those
    of the data states that redis holds for the task ids. *)
Lemma collect_descriptors_positions redis task_ids descriptors ds :
  collect_descriptors redis task_ids descriptors = Returned (inr ds) →
  ∃ ds', ds = descriptors ++ ds' ∧
         Forall2 (fun task_id d =>
                    ∃ value, redis !! data_key (id_text task_id) = Some value ∧
                             descriptor_of value = Returned d)
                 task_ids ds'.
Proof.
  revert descriptors.
  induction task_ids as [|task_id rest IH]; intros descriptors; simpl.
  { intros [= <-]. exists []. by rewrite app_nil_r. }
  destruct (redis !! data_key (id_text task_id)) as [value|] eqn:Hv; [|done].
  destruct (descriptor_of value) as [d|e] eqn:Hd; [|by destruct (caught e)].
  intros (ds' & -> & Hall)%IH. exists (d :: ds').
  rewrite <- app_assoc. split; [done|]. constructor; [by exists value | done].
Qed.

Section SaveStateFacts.
Context {IO : IdSetOrder}.
Variable parse_value : string → json.

(** A request dies of TypeError when the id of some marker cannot be
    hashed; otherwise it is answered 400 with the store as it was,
    answered 201 with one record written, or dies of the assertion. *)
Lemma save_state_cases uuid p redis :
  (mapM hashed (marker_ids parse_value (p_state p)) = None ∧
   save_state parse_value uuid p redis = Raised TypeError) ∨
  ∃ ids,
    mapM hashed (marker_ids parse_value (p_state p)) = Some ids ∧
    ((∃ resp, save_state parse_value uuid p redis = Returned (resp, redis) ∧
              status resp = 400 ∧
              (findall (p_state p) = [] ∨
               forallb (has_descriptor redis) (distinct_ids ids) = false)) ∨
     (∃ ds, save_state parse_value uuid p redis =
              Returned ((JDict [("state_id", JStr uuid)], 201),
                        <[state_key uuid :=
                            json_dumps (meta_state_of (p_state p) p
                                          (set_to_list ids) ds)]> redis) ∧
            collect_descriptors redis (set_to_list ids) [] =
              Returned (inr ds) ∧
            length ds = length (findall (p_state p)) ∧
            findall (p_state p) ≠ [] ∧
            NoDup (id_key <$> ids) ∧
            forallb (has_descriptor redis) (distinct_ids ids) = true) ∨
     (save_state parse_value uuid p redis = Raised AssertionError ∧
      findall (p_state p) ≠ [] ∧
      ¬ NoDup (id_key <$> ids) ∧
      forallb (has_descriptor redis) (distinct_ids ids) = true)).
Proof.
  unfold save_state, py_set, marker_ids.
  destruct (mapM hashed (parse_value <$> findall (p_state p)))
    as [ids|] eqn:Hids; simpl; [|by left].
  right. exists ids. split; [done|].
  assert (length ids = length (findall (p_state p))) as Hn.
  { apply mapM_Some, Forall2_length in Hids.
    by rewrite length_fmap in Hids. }
  pose proof (Permutation_length (set_to_list_perm ids)) as Hset.
  case_bool_decide as Hm.
  { left. eexists. split; [done|]. split; [done|]. by left. }
  destruct (collect_descriptors_total redis (set_to_list ids) [])
    as [(Hall & ds & Hds & Hlen)|(Hall & resp & Hr & Hst)];
    rewrite (forallb_Permutation _ _ _ (set_to_list_perm ids)) in Hall.
  2: { rewrite Hr. simpl. left. exists resp. split; [done|].
       split; [done|]. by right. }
  rewrite Hds. simpl. simpl in Hlen. right.
  case_bool_decide as Hlen'.
  - left. exists ds. split; [done|]. split; [done|]. split; [done|].
    split; [done|]. split; [|done].
    destruct (decide (NoDup (id_key <$> ids))) as [|Hdup]; [done|].
    apply distinct_ids_shorter in Hdup. lia.
  - right. split; [done|]. split; [done|]. split; [|done].
    intros Hnd%distinct_ids_same. rewrite Hnd in Hset. lia.
Qed.

(** C3: a template without markers is answered 400 and nothing is
    stored.  A request answered 201 returns the id that [uuid4()] drew and
    has written exactly one record, under the key [state:] followed by
    that id: the template, the server and the handler of the request, the
    task ids of its markers, and for each task id, at its position, the
    descriptor of the data state that redis holds under [data:] followed
    by the id.  Every other answer is a 400 and leaves the store as it
    was. *)
Theorem save_state_rejects_or_persists uuid p redis :
  (findall (p_state p) = [] →
   save_state parse_value uuid p redis =
     Returned ((JDict [("error", JStr no_ids_error)], 400), redis)) ∧
  (∀ resp redis',
     save_state parse_value uuid p redis = Returned (resp, redis') →
     (status resp = 201 →
      resp = (JDict [("state_id", JStr uuid)], 201) ∧
      ∃ ids task_ids descriptors,
        mapM hashed (marker_ids parse_value (p_state p)) = Some ids ∧
        task_ids ≡ₚ ids ∧
        length descriptors = length (findall (p_state p)) ∧
        Forall2 (fun task_id d =>
                   ∃ data meta,
                     redis !! ("data:" +:+ id_text task_id) =
                       Some (RJson (JDict data)) ∧
                     assoc "meta" data = Some (JDict meta) ∧
                     assoc "descriptor" meta = Some d)
                task_ids descriptors ∧
        redis' =
          <["state:" +:+ uuid :=
              RJson (JDict [("state", JStr (p_state p));
                            ("server", p_server p);
                            ("handler", p_handler p);
                            ("task_ids", JList (id_json <$> task_ids));
                            ("descriptors", JList descriptors)])]> redis) ∧
     (status resp ≠ 201 → status resp = 400 ∧ redis' = redis)).
Proof.
  split.
  - intros Hm. unfold save_state, py_set. by rewrite Hm.
  - intros resp redis' Hs.
    destruct (save_state_cases uuid p redis)
      as [[_ Hs0]|(ids & Hids & [(resp0 & Hs0 & Hst & _)
                                |[(ds & Hs0 & Hds & Hlen & _ & Hnd & _)
                                 |(Hs0 & _)]])];
      rewrite Hs0 in Hs; simplify_eq.
    + split; [intros H201; rewrite Hst in H201; lia | done].
    + split; [|intros Hne; by destruct Hne].
      intros _. split; [done|].
      exists ids, (set_to_list ids), ds. split; [done|].
      split; [by rewrite set_to_list_perm, (distinct_ids_same _ Hnd)|].
      split; [done|]. split; [|done].
      apply collect_descriptors_positions in Hds as (ds' & -> & Hall).
      simpl. eapply Forall2_impl; [exact Hall|].
      intros task_id d (value & Hv & Hd).
      apply descriptor_of_Returned in Hd as (data & meta & -> & ? & ?).
      by exists data, meta.
Qed.

(** C8, as the code has it: a template in which two markers hold equal
    task ids is never stored.  The request dies of TypeError when the id
    of some marker cannot be hashed; when all can, it dies of the
    assertion if every task id of the template has a data state with a
    descriptor in redis, and is answered 400, with nothing stored, as soon
    as one has none. *)
Theorem save_state_duplicate_marker_ids uuid p redis :
  (mapM hashed (marker_ids parse_value (p_state p)) = None →
   save_state parse_value uuid p redis = Raised TypeError) ∧
  (∀ ids,
     mapM hashed (marker_ids parse_value (p_state p)) = Some ids →
     ¬ NoDup (id_key <$> ids) →
     (forallb (has_descriptor redis) (distinct_ids ids) = true →
      save_state parse_value uuid p redis = Raised AssertionError) ∧
     (forallb (has_descriptor redis) (distinct_ids ids) = false →
      ∃ resp, save_state parse_value uuid p redis = Returned (resp, redis) ∧
              status resp = 400)).
Proof.
  destruct (save_state_cases uuid p redis)
    as [[Hnone Hs0]|(ids0 & Hids0 & Hcases)].
  { split; [done|]. intros ids Hids. congruence. }
  split; [congruence|].
  intros ids Hids Hdup. assert (ids0 = ids) as -> by congruence.
  destruct Hcases as [(resp0 & Hs0 & Hst & [Hm|Hall0])
                     |[(ds & _ & _ & _ & _ & Hnd & _)
                      |(Hs0 & _ & _ & Hall0)]]; [| |done|].
  - exfalso. apply Hdup. unfold marker_ids in Hids. rewrite Hm in Hids.
    simpl in Hids. injection Hids as <-. constructor.
  - split; [congruence | eauto].
  - split; [done | congruence].
Qed.
End SaveStateFacts.

(** C3 at work: a template without markers, and one with two, stored
    under [state:u1]. *)
Lemma save_state_rejects_or_persists_witness :
  (findall "{x: 1}" = [] ∧
   save_state (IO:=first_seen_ids) sample_parse_value "u1"
     (sample_payload "{x: 1}") sample_redis =
     Returned ((JDict [("error", JStr no_ids_error)], 400), sample_redis)) ∧
  (save_state (IO:=first_seen_ids) sample_parse_value "u1" two_markers
     sample_redis = Returned (created_u1, saved_redis) ∧
   status created_u1 = 201 ∧
   created_u1 = (JDict [("state_id", JStr "u1")], 201) ∧
   saved_redis !! "state:u1" =
     Some (RJson (JDict [("state", JStr "{x: $A$, y: $B$}");
                         ("server", p_server two_markers);
                         ("handler", p_handler two_markers);
                         ("task_ids", JList [JStr "A"; JStr "B"]);
                         ("descriptors", JList [JStr "A"; JStr "B"])])) ∧
   ∃ ids task_ids descriptors,
     mapM hashed (marker_ids sample_parse_value (p_state two_markers)) =
       Some ids ∧
     task_ids ≡ₚ ids ∧
     length descriptors = length (findall (p_state two_markers)) ∧
     Forall2 (fun task_id d =>
                ∃ data meta,
                  sample_redis !! ("data:" +:+ id_text task_id) =
                    Some (RJson (JDict data)) ∧
                  assoc "meta" data = Some (JDict meta) ∧
                  assoc "descriptor" meta = Some d)
             task_ids descriptors ∧
     saved_redis =
       <["state:" +:+ "u1" :=
           RJson (JDict [("state", JStr (p_state two_markers));
                         ("server", p_server two_markers);
                         ("handler", p_handler two_markers);
                         ("task_ids", JList (id_json <$> task_ids));
                         ("descriptors", JList descriptors)])]>
         sample_redis).
Proof.
  split.
  - split; [reflexivity|].
    apply (save_state_rejects_or_persists (IO:=first_seen_ids)
             sample_parse_value "u1" (sample_payload "{x: 1}") sample_redis).
    reflexivity.
  - destruct (save_state_rejects_or_persists (IO:=first_seen_ids)
                sample_parse_value "u1" two_markers sample_redis) as [_ Hok].
    destruct (Hok created_u1 saved_redis) as [H201 _]; [reflexivity|].
    split; [reflexivity|]. split; [reflexivity|]. split; [reflexivity|].
    split; [reflexivity|].
    apply H201. reflexivity.
Defined.

(** C8 as stated fails where a task id has no data state: the template
    names [Q] twice, redis knows no [Q], and the answer is 400. *)
Lemma save_state_duplicate_ids_bad_request :
  ¬ NoDup (marker_ids sample_parse_value "$Q$ and $Q$") ∧
  save_state (IO:=first_seen_ids) sample_parse_value "u1"
    (sample_payload "$Q$ and $Q$") sample_redis =
  Returned
    (error "Data task id is Q could not be found in redis. State cannot be saved"
           400, sample_redis).
Proof.
  split; [|reflexivity].
  intros [Hq _]%NoDup_cons. apply Hq. left.
Qed.

(** C8 at work: the list of 1 twice, [A] twice with its data state in
    redis, [Q] twice without. *)
Lemma save_state_duplicate_marker_ids_witness :
  save_state (IO:=first_seen_ids) sample_parse_value "u1"
    (sample_payload "$[1]$ and $[1]$") sample_redis = Raised TypeError ∧
  save_state (IO:=first_seen_ids) sample_parse_value "u1"
    (sample_payload "$A$ and $A$") sample_redis = Raised AssertionError ∧
  ∃ resp,
    save_state (IO:=first_seen_ids) sample_parse_value "u1"
      (sample_payload "$Q$ and $Q$") sample_redis =
      Returned (resp, sample_redis) ∧
    status resp = 400.
Proof.
  split; [|split].
  - apply (save_state_duplicate_marker_ids (IO:=first_seen_ids)
             sample_parse_value "u1" (sample_payload "$[1]$ and $[1]$")
             sample_redis).
    reflexivity.
  - destruct (save_state_duplicate_marker_ids (IO:=first_seen_ids)
                sample_parse_value "u1" (sample_payload "$A$ and $A$")
                sample_redis) as [_ Hdup].
    apply (Hdup [IdStr "A"; IdStr "A"]).
    + reflexivity.
    + intros [Ha _]%NoDup_cons. apply Ha. left.
    + reflexivity.
  - destruct (save_state_duplicate_marker_ids (IO:=first_seen_ids)
                sample_parse_value "u1" (sample_payload "$Q$ and $Q$")
                sample_redis) as [_ Hdup].
    apply (Hdup [IdStr "Q"; IdStr "Q"]).
    + reflexivity.
    + intros [Hq _]%NoDup_cons. apply Hq. left.
    + reflexivity.
Defined.

(** [True] and [1] are one element of a set, the text [1] is another;
    the id that stays is the one that came first, and it is looked up
    under its own text. *)
Example distinct_ids_equal_values :
  distinct_ids [IdBool true; IdNum 1; IdStr "1"; IdNum 0; IdBool false; IdNone]
  = [IdBool true; IdStr "1"; IdNum 0; IdNone].
Proof. reflexivity. Qed.

Example save_state_true_and_one :
  marker_ids sample_parse_value "$true$ and $1$" = [JBool true; JNum 1] ∧
  save_state (IO:=first_seen_ids) sample_parse_value "u1"
    (sample_payload "$true$ and $1$")
    (<["data:True" := descriptor_record (JStr "T")]> sample_redis) =
    Raised AssertionError ∧
  save_state (IO:=first_seen_ids) sample_parse_value "u1"
    (sample_payload "$true$ and $1$")
    (<["data:1" := descriptor_record (JStr "T")]> sample_redis) =
    Returned
      (error "Data task id is True could not be found in redis. State cannot be saved"
             400,
       <["data:1" := descriptor_record (JStr "T")]> sample_redis).
Proof. repeat split; reflexivity. Qed.

(** ** The access gate: [request_state_access] and [get_state_data] *)

Section AccessGateFacts.
Context {O : SetOrder} {H : Type} {E : ETLHandler H}.
Variable get_data_state_for_task_id : string → bool → option data_state.
Variable re_sub : json → json → json → outcome json.

Local Abbreviation has_succeeded := (succeeded get_data_state_for_task_id).
Local Abbreviation is_submitted := (submitted get_data_state_for_task_id).
Local Abbreviation etl_loop := (check_etls get_data_state_for_task_id).
Local Abbreviation read_state :=
  (get_state_data get_data_state_for_task_id re_sub).

Lemma submitted_not_succeeded wait task_id :
  is_submitted wait task_id = true → has_succeeded wait task_id = false.
Proof.
  unfold submitted, succeeded, etl_state_is.
  destruct (get_data_state_for_task_id task_id wait) as [ds|]; [|done].
  intros Hs%bool_decide_eq_true. rewrite Hs. done.
Qed.

(** One round of the loop of lines 128-138. *)
Lemma check_etls_cons wait task_id rest :
  etl_loop wait (task_id :: rest) =
    if is_submitted wait task_id then Some still_running
    else if has_succeeded wait task_id then etl_loop wait rest
    else Some no_access.
Proof.
  unfold submitted, succeeded, etl_state_is. simpl.
  destruct (get_data_state_for_task_id task_id wait) as [ds|]; [|done].
  repeat case_decide; repeat case_bool_decide; done.
Qed.

(** The loop runs to its end exactly when every ETL has succeeded. *)
Lemma check_etls_None wait grant :
  etl_loop wait grant = None ↔ forallb (has_succeeded wait) grant = true.
Proof.
  induction grant as [|task_id rest IH]; [done|].
  rewrite check_etls_cons. cbn [forallb].
  destruct (is_submitted wait task_id) eqn:Hsub.
  - rewrite (submitted_not_succeeded _ _ Hsub). done.
  - destruct (has_succeeded wait task_id); [done|]. done.
Qed.

(** The loop returns at the first ETL that has not succeeded, and what
    it returns depends on that ETL alone. *)
Lemma check_etls_Some wait grant resp :
  etl_loop wait grant = Some resp ↔
  ∃ pre j post,
    grant = pre ++ j :: post ∧
    forallb (has_succeeded wait) pre = true ∧
    has_succeeded wait j = false ∧
    resp = if is_submitted wait j then still_running else no_access.
Proof.
  induction grant as [|task_id rest IH].
  { split; [done|]. intros (pre & j & post & Hg & _). by destruct pre. }
  rewrite check_etls_cons.
  destruct (is_submitted wait task_id) eqn:Hsub.
  - pose proof (submitted_not_succeeded _ _ Hsub) as Hsucc. split.
    + intros [= <-]. exists [], task_id, rest. by rewrite Hsub.
    + intros (pre & j & post & Hg & Hpre & Hj & ->).
      destruct pre as [|x pre]; simplify_eq/=; [by rewrite Hsub|].
      rewrite Hsucc in Hpre. done.
  - destruct (has_succeeded wait task_id) eqn:Hsucc.
    + rewrite IH. split.
      * intros (pre & j & post & -> & Hpre & Hj & ->).
        exists (task_id :: pre), j, post. simpl. by rewrite Hsucc.
      * intros (pre & j & post & Hg & Hpre & Hj & ->).
        destruct pre as [|x pre]; simplify_eq/=; [congruence|].
        apply andb_prop in Hpre as [_ Hpre]. by exists pre, j, post.
    + split.
      * intros [= <-]. exists [], task_id, rest. by rewrite Hsub.
      * intros (pre & j & post & Hg & Hpre & Hj & ->).
        destruct pre as [|x pre]; simplify_eq/=; [by rewrite Hsub|].
        rewrite Hsucc in Hpre. done.
Qed.

(** With a stored record and a grant, the handler returns what the loop
    returns, and gets to the rewriting only when the loop ran through. *)
Lemma get_state_data_granted state_id wait ses redis meta_state grant :
  redis !! state_key state_id = Some (RJson meta_state) →
  state_access ses !! KStr state_id = Some grant →
  read_state state_id wait ses redis =
    match etl_loop wait grant with
    | Some resp => Returned resp
    | None =>
        ids ← py_getitem meta_state "task_ids";
        task_ids ← py_iter ids;
        meta_state' ← rewrite_state re_sub (state_access ses) 0 task_ids
                        meta_state;
        Returned (JDict [("state", meta_state')], 200)
    end.
Proof. intros Hr Hg. unfold get_state_data. by rewrite Hr, Hg. Qed.

Lemma rewriting_status (sa : gmap pykey (list string)) meta_state :
  status_of (ids ← py_getitem meta_state "task_ids";
             task_ids ← py_iter ids;
             meta_state' ← rewrite_state re_sub sa 0 task_ids meta_state;
             Returned (JDict [("state", meta_state')], 200)) = Some 200 ∨
  status_of (ids ← py_getitem meta_state "task_ids";
             task_ids ← py_iter ids;
             meta_state' ← rewrite_state re_sub sa 0 task_ids meta_state;
             Returned (JDict [("state", meta_state')], 200)) = None.
Proof.
  destruct (py_getitem meta_state "task_ids") as [x|]; simpl; [|by right].
  destruct (py_iter x) as [l|]; simpl; [|by right].
  destruct (rewrite_state re_sub sa 0 l meta_state); simpl; [by left|by right].
Qed.
Section Granted.
Variables (state_id : string) (wait : bool) (ses : session).
Variables (redis : gmap string rvalue) (meta_state : json).
Variable grant : list string.
Hypothesis Hstored : redis !! state_key state_id = Some (RJson meta_state).
Hypothesis Hgrant : state_access ses !! KStr state_id = Some grant.

Lemma get_state_data_early resp :
  etl_loop wait grant = Some resp →
  read_state state_id wait ses redis = Returned resp.
Proof.
  intros Hc. by rewrite (get_state_data_granted _ _ _ _ _ _ Hstored Hgrant), Hc.
Qed.

Lemma get_state_data_through :
  etl_loop wait grant = None →
  status_of (read_state state_id wait ses redis) = Some 200 ∨
  status_of (read_state state_id wait ses redis) = None.
Proof.
  intros Hc. rewrite (get_state_data_granted _ _ _ _ _ _ Hstored Hgrant), Hc.
  apply rewriting_status.
Qed.

Lemma get_state_data_returns_loop resp :
  status resp = 202 ∨ status resp = 403 →
  read_state state_id wait ses redis = Returned resp ↔
  etl_loop wait grant = Some resp.
Proof.
  intros Hst. split; [|apply get_state_data_early].
  intros Hr. destruct (etl_loop wait grant) as [resp'|] eqn:Hc.
  - rewrite (get_state_data_early _ Hc) in Hr. congruence.
  - destruct (get_state_data_through Hc) as [Hs|Hs];
      rewrite Hr in Hs; simpl in Hs; simplify_eq; lia.
Qed.

(** C1, as the code has it: with a stored record and a grant, the
    answer is decided by the first ETL of the grant, in its order,
    that has not succeeded.  It is "still running" (202) exactly when
    that ETL is SUBMITTED, "no access" (403) exactly when it is in any
    other state or has no data state; 202 and 403 carry these two
    fixed bodies only; and the handler gets past the check, answering
    neither 202 nor 403, exactly when every ETL of the grant is
    SUCCESS. *)
Theorem get_state_data_first_unfinished :
  (read_state state_id wait ses redis = Returned still_running ↔
   ∃ pre j post,
     grant = pre ++ j :: post ∧
     forallb (has_succeeded wait) pre = true ∧
     is_submitted wait j = true) ∧
  (read_state state_id wait ses redis = Returned no_access ↔
   ∃ pre j post,
     grant = pre ++ j :: post ∧
     forallb (has_succeeded wait) pre = true ∧
     has_succeeded wait j = false ∧
     is_submitted wait j = false) ∧
  (status_of (read_state state_id wait ses redis) ≠ Some 202 ∧
   status_of (read_state state_id wait ses redis) ≠ Some 403 ↔
   forallb (has_succeeded wait) grant = true) ∧
  (status_of (read_state state_id wait ses redis) = Some 202 →
   read_state state_id wait ses redis = Returned still_running) ∧
  (status_of (read_state state_id wait ses redis) = Some 403 →
   read_state state_id wait ses redis = Returned no_access).
Proof.
  split; [|split; [|split; [|split]]].
  - rewrite get_state_data_returns_loop by (by left).
    rewrite check_etls_Some. split.
    + intros (pre & j & post & Hg & Hpre & Hj & Hresp).
      exists pre, j, post. split; [done|]. split; [done|].
      by destruct (is_submitted wait j).
    + intros (pre & j & post & Hg & Hpre & Hj).
      exists pre, j, post. rewrite Hj.
      by rewrite (submitted_not_succeeded _ _ Hj).
  - rewrite get_state_data_returns_loop by (by right).
    rewrite check_etls_Some. split.
    + intros (pre & j & post & Hg & Hpre & Hj & Hresp).
      exists pre, j, post. split; [done|]. split; [done|]. split; [done|].
      by destruct (is_submitted wait j).
    + intros (pre & j & post & Hg & Hpre & Hj & Hs).
      exists pre, j, post. by rewrite Hs.
  - rewrite <- check_etls_None.
    destruct (etl_loop wait grant) as [resp|] eqn:Hc.
    + rewrite (get_state_data_early _ Hc).
      apply check_etls_Some in Hc as (pre & j & post & _ & _ & _ & ->).
      split; [|done]. intros [H202 H403].
      destruct (is_submitted wait j); simpl in *; done.
    + split; [done|]. intros _.
      destruct (get_state_data_through Hc) as [-> | ->]; done.
  - destruct (etl_loop wait grant) as [resp|] eqn:Hc.
    + rewrite (get_state_data_early _ Hc).
      apply check_etls_Some in Hc as (pre & j & post & _ & _ & _ & ->).
      by destruct (is_submitted wait j).
    + destruct (get_state_data_through Hc) as [-> | ->]; done.
  - destruct (etl_loop wait grant) as [resp|] eqn:Hc.
    + rewrite (get_state_data_early _ Hc).
      apply check_etls_Some in Hc as (pre & j & post & _ & _ & _ & ->).
      by destruct (is_submitted wait j).
    + destruct (get_state_data_through Hc) as [-> | ->]; done.
Qed.
End Granted.

(** The replacement is looked up under the counter of [enumerate], and a
    dict whose keys are state ids has no such key. *)
Lemma rewrite_state_KeyError sa i task_id rest meta_state :
  str_keyed sa →
  rewrite_state re_sub sa i (task_id :: rest) meta_state = Raised KeyError.
Proof.
  intros Hsa. simpl. unfold grants_getitem.
  destruct (sa !! KInt (Z.of_nat i)) as [repl|] eqn:Hi; [|done].
  destruct (Hsa (KInt (Z.of_nat i))) as [s Hs]; [by eexists | done].
Qed.

Lemma get_state_data_rewrite_raises state_id wait ses redis state p
    task_id task_ids descriptors grant :
  str_keyed (state_access ses) →
  redis !! state_key state_id =
    Some (json_dumps (meta_state_of state p (task_id :: task_ids)
                                    descriptors)) →
  state_access ses !! KStr state_id = Some grant →
  forallb (has_succeeded wait) grant = true →
  read_state state_id wait ses redis = Raised KeyError.
Proof.
  intros Hsa Hr Hg Hall.
  rewrite (get_state_data_granted _ _ _ _ _ _ Hr Hg).
  apply check_etls_None in Hall. rewrite Hall.
  change (py_getitem (meta_state_of state p (task_id :: task_ids) descriptors)
                     "task_ids")
    with (Returned (JList (id_json task_id :: (id_json <$> task_ids)))).
  change (Returned ?x ≫= ?k) with (k x). cbv beta.
  change (py_iter (JList ?l)) with (Returned l).
  change (Returned ?x ≫= ?k) with (k x). cbv beta.
  by rewrite rewrite_state_KeyError.
Qed.

(** A session is given its grants by [request_state_access] alone, under
    the state id: the keys stay strings. *)
Lemma request_state_access_str_keyed state_id wait auth ses redis
    resp ses' redis' :
  str_keyed (state_access ses) →
  request_state_access state_id wait auth ses redis =
    Returned (resp, ses', redis') →
  str_keyed (state_access ses').
Proof.
  intros Hsa. unfold request_state_access.
  destruct (negb (truthy (redis !! state_key state_id)));
    [by intros [= _ <- _]|].
  destruct (json_loads (redis !! state_key state_id)) as [m|]; [|done]. simpl.
  destruct (py_getitem m "handler") as [hd|]; [|done]. simpl.
  destruct (py_getitem m "server") as [sv|]; [|done]. simpl.
  destruct (etl_factory hd sv auth) as [h|]; [|done]. simpl.
  destruct (py_getitem m "descriptors") as [ds|]; [|done]. simpl.
  destruct (etl_handle h ds (data_tasks ses) true wait redis)
    as [[ids r]|]; [|done]. simpl.
  intros [= _ <- _]. simpl. intros k [v Hk].
  destruct (decide (k = KStr state_id)) as [->|Hne]; [by eexists|].
  rewrite lookup_insert_ne in Hk by done. apply Hsa. by eexists.
Qed.

(** With a stored record and no grant the answer is 404 and its body is
    a fixed message. *)
Lemma get_state_data_no_grant state_id wait ses redis meta_state :
  redis !! state_key state_id = Some (RJson meta_state) →
  state_access ses !! KStr state_id = None →
  read_state state_id wait ses redis =
    Returned (error access_not_requested 404).
Proof. intros Hr Hg. unfold get_state_data. by rewrite Hr, Hg. Qed.

(** C5: for a state id without a stored record the answer is 404; the
    session, with its data tasks and grants, and the store are returned
    as they were, and no handler is built or run. *)
Theorem request_state_access_unknown_state state_id wait auth ses redis :
  redis !! state_key state_id = None →
  request_state_access state_id wait auth ses redis =
    Returned (error ("Could not find state associated with id " +:+ state_id)
                    404, ses, redis).
Proof. intros Hr. unfold request_state_access. by rewrite Hr. Qed.

(** C9: without a stored record [json.loads] is given [None] and the
    handler dies of a TypeError, whatever the session holds. *)
Theorem get_state_data_unknown_state state_id wait ses redis :
  redis !! state_key state_id = None →
  read_state state_id wait ses redis = Raised TypeError.
Proof. intros Hr. unfold get_state_data. by rewrite Hr. Qed.

(** C10: after a request answered 202 the data tasks of the session are
    free of duplicates and are the old ones together with the ids the
    handler returned; these ids are the grant now stored for the state,
    whatever grant was there before, and the grants for other states
    are as they were. *)
Theorem request_state_access_grant state_id wait auth ses redis
    resp ses' redis' :
  request_state_access state_id wait auth ses redis =
    Returned (resp, ses', redis') →
  status resp = 202 →
  NoDup (data_tasks ses') ∧
  ∃ task_ids,
    state_access ses' !! KStr state_id = Some task_ids ∧
    (∀ id, id ∈ task_ids → id ∈ data_tasks ses') ∧
    (∀ id, id ∈ data_tasks ses' ↔ id ∈ data_tasks ses ∨ id ∈ task_ids) ∧
    (∃ etl_handler descriptors,
       etl_handle etl_handler descriptors (data_tasks ses) true wait redis =
         Returned (task_ids, redis')) ∧
    (∀ k, k ≠ KStr state_id →
          state_access ses' !! k = state_access ses !! k).
Proof.
  unfold request_state_access.
  destruct (negb (truthy (redis !! state_key state_id)));
    [by intros [= <- _ _] Hst|].
  destruct (json_loads (redis !! state_key state_id)) as [m|]; [|done]. simpl.
  destruct (py_getitem m "handler") as [hd|]; [|done]. simpl.
  destruct (py_getitem m "server") as [sv|]; [|done]. simpl.
  destruct (etl_factory hd sv auth) as [h|]; [|done]. simpl.
  destruct (py_getitem m "descriptors") as [ds|]; [|done]. simpl.
  destruct (etl_handle h ds (data_tasks ses) true wait redis)
    as [[ids r]|] eqn:Hh; [|done]. simpl.
  intros [= <- <- <-] _. simpl. split; [apply list_set_NoDup|].
  exists ids. split; [by rewrite lookup_insert_eq|].
  split; [intros id Hid; rewrite list_set_elem, elem_of_app; by right|].
  split; [intros id; by rewrite list_set_elem, elem_of_app|].
  split; [by exists h, ds|].
  intros k Hk. by rewrite lookup_insert_ne.
Qed.
End AccessGateFacts.

(** A state that [save_state] stored is never handed out: once every ETL
    of the grant has succeeded the rewriting raises. *)
Lemma saved_state_is_never_read {IO : IdSetOrder} parse_value
    get_data_state_for_task_id re_sub uuid p redis0 resp redis wait ses grant :
  save_state parse_value uuid p redis0 = Returned (resp, redis) →
  status resp = 201 →
  str_keyed (state_access ses) →
  state_access ses !! KStr uuid = Some grant →
  forallb (succeeded get_data_state_for_task_id wait) grant = true →
  get_state_data get_data_state_for_task_id re_sub uuid wait ses redis =
    Raised KeyError.
Proof.
  intros Hs H201 Hsa Hg Hall.
  destruct (save_state_cases parse_value uuid p redis0)
    as [[_ Hs0]|(ids & Hids & [(resp0 & Hs0 & Hst & _)
                              |[(ds & Hs0 & Hds & Hlen & Hm & _)
                               |(Hs0 & _)]])];
    rewrite Hs0 in Hs; simplify_eq; [lia|].
  destruct (set_to_list ids) as [|task_id task_ids] eqn:Hset.
  { simpl in Hds. injection Hds as <-.
    destruct (findall (p_state p)); [done | discriminate Hlen]. }
  eapply get_state_data_rewrite_raises; [done| |done..].
  apply lookup_insert_eq.
Qed.

(** C1 as stated fails: [R'] is still in the queue and [F'] has failed,
    the claim wants 403 and the answer is 202, because [R'] comes first
    in the grant. *)
Lemma get_state_data_pending_despite_failure :
  saved_redis !! state_key "u1" = Some (RJson two_markers_state) ∧
  state_access (granted "u1" ["R'"; "F'"]) !! KStr "u1" = Some ["R'"; "F'"] ∧
  ¬ ((∃ j, j ∈ ["R'"; "F'"] ∧
           etl_state_is sample_data_state "FAILURE" false j = true) →
     status_of (get_state_data sample_data_state re_sub_keep "u1" false
                  (granted "u1" ["R'"; "F'"]) saved_redis) = Some 403).
Proof.
  split; [reflexivity|]. split; [reflexivity|].
  intros Hclaim. assert (Some 202 = Some 403) as Hno; [|discriminate Hno].
  apply Hclaim. exists "F'". split; [right; left | reflexivity].
Qed.

(** C1 at work: [A'] succeeded, [R'] is in the queue, [F'] failed. *)
Lemma get_state_data_first_unfinished_witness :
  saved_redis !! state_key "u1" = Some (RJson two_markers_state) ∧
  state_access (granted "u1" ["A'"; "R'"; "F'"]) !! KStr "u1" =
    Some ["A'"; "R'"; "F'"] ∧
  get_state_data sample_data_state re_sub_keep "u1" false
    (granted "u1" ["A'"; "R'"; "F'"]) saved_redis = Returned still_running.
Proof.
  split; [reflexivity|]. split; [reflexivity|].
  destruct (get_state_data_first_unfinished sample_data_state re_sub_keep
              "u1" false (granted "u1" ["A'"; "R'"; "F'"]) saved_redis
              two_markers_state ["A'"; "R'"; "F'"])
    as [Hpending _]; [reflexivity | reflexivity |].
  apply Hpending. exists ["A'"], "R'", ["F'"].
  split; [reflexivity|]. split; reflexivity.
Defined.

(** C2 fails on the code: the state of [two_markers] is saved as [u1], a
    fresh session requests access and is granted [A'] and [B'], both
    SUCCESS, and reading the state raises KeyError where the claim wants
    the template with [A'] and [B'] in the place of [A] and [B]. *)
Theorem get_state_data_all_success_raises :
  save_state (IO:=first_seen_ids) sample_parse_value "u1" two_markers
    sample_redis = Returned (created_u1, saved_redis) ∧
  request_state_access (O:=last_seen_order) (E:=priming_handler)
    "u1" false JNull empty_session saved_redis =
    Returned (accepted, granted "u1" ["A'"; "B'"], saved_redis) ∧
  forallb (succeeded sample_data_state false) ["A'"; "B'"] = true ∧
  get_state_data sample_data_state re_sub_keep "u1" false
    (granted "u1" ["A'"; "B'"]) saved_redis = Raised KeyError.
Proof. repeat split; reflexivity. Qed.

(** C6 fails on the code: a session without any grant asks for a state id
    that has no record, and the handler dies of a TypeError where the
    claim wants 404. *)
Theorem get_state_data_no_grant_no_record :
  state_access empty_session !! KStr "u2" = None ∧
  sample_redis !! state_key "u2" = None ∧
  get_state_data sample_data_state re_sub_keep "u2" false
    empty_session sample_redis = Raised TypeError.
Proof. repeat split; reflexivity. Qed.

(** C5 at work. *)
Lemma request_state_access_unknown_state_witness :
  sample_redis !! state_key "u2" = None ∧
  request_state_access (O:=last_seen_order) (E:=priming_handler)
    "u2" false JNull old_session sample_redis =
    Returned (error "Could not find state associated with id u2" 404,
              old_session, sample_redis).
Proof.
  split; [reflexivity|].
  apply (request_state_access_unknown_state (O:=last_seen_order)
           (E:=priming_handler) "u2" false JNull old_session sample_redis).
  reflexivity.
Defined.

(** C9 at work, for a session with a grant. *)
Lemma get_state_data_unknown_state_witness :
  sample_redis !! state_key "u1" = None ∧
  state_access old_session !! KStr "u1" = Some ["old"] ∧
  get_state_data sample_data_state re_sub_keep "u1" false
    old_session sample_redis = Raised TypeError.
Proof.
  split; [reflexivity|]. split; [reflexivity|].
  apply (get_state_data_unknown_state sample_data_state re_sub_keep
           "u1" false old_session sample_redis).
  reflexivity.
Defined.

(** C10 at work: the session had [A'] among its data tasks and an older
    grant for [u1]. *)
Lemma request_state_access_grant_witness :
  request_state_access (O:=last_seen_order) (E:=priming_handler)
    "u1" false JNull old_session saved_redis =
    Returned (accepted, renewed_session, saved_redis) ∧
  status accepted = 202 ∧
  NoDup (data_tasks renewed_session) ∧
  ∃ task_ids,
    state_access renewed_session !! KStr "u1" = Some task_ids ∧
    (∀ id, id ∈ task_ids → id ∈ data_tasks renewed_session) ∧
    (∀ id, id ∈ data_tasks renewed_session ↔
           id ∈ data_tasks old_session ∨ id ∈ task_ids) ∧
    (∃ etl_handler descriptors,
       etl_handle (ETLHandler:=priming_handler) etl_handler descriptors
         (data_tasks old_session) true false saved_redis =
         Returned (task_ids, saved_redis)) ∧
    (∀ k, k ≠ KStr "u1" →
          state_access renewed_session !! k = state_access old_session !! k).
Proof.
  split; [reflexivity|]. split; [reflexivity|].
  apply (request_state_access_grant (O:=last_seen_order)
           (E:=priming_handler) "u1" false JNull old_session saved_redis
           accepted renewed_session saved_redis); reflexivity.
Defined.

(** ** The jobs of a session *)

(** [l.remove(x)] on a list that holds [x] takes one copy of [x] out. *)
Lemma list_remove_elem x l :
  x ∈ l → ∃ l', list_remove x l = Returned l' ∧ l ≡ₚ x :: l'.
Proof.
  induction l as [|y rest IH]; [by intros ?%elem_of_nil|].
  intros Hx. simpl. case_decide as Hy; [subst; by eexists|].
  apply elem_of_cons in Hx as [->|Hx]; [done|].
  destruct (IH Hx) as (l' & -> & Hperm). exists (y :: l'). split; [done|].
  rewrite Hperm. apply Permutation_swap.
Qed.

Lemma list_remove_not_elem x l : x ∉ l → list_remove x l = Raised ValueError.
Proof.
  induction l as [|y rest IH]; [done|].
  intros Hx. apply not_elem_of_cons in Hx as [Hne Hx]. simpl.
  case_decide; [congruence|]. by rewrite (IH Hx).
Qed.

Section SessionJobsFacts.
Context {C J : Type} {Cel : Celery C J}.

(** A job that the registry does not know is answered 400 and nothing
    is submitted. *)
Lemma create_job_unknown job_name args ses (c : C) :
  job_factory job_name = None →
  create_job job_name args ses c =
    ((JDict [("error_msg",
              JStr ("Job with name '" +:+ job_name +:+ "' not found."))],
      400), ses, c).
Proof. intros Hf. unfold create_job. by rewrite Hf. Qed.


(** C7: for a job of the session whose result is an exception the
    answer is 200 with the state of the job and, as its result, the
    string "ExceptionType: message". *)
Theorem get_job_details_failed job_id (wait : bool) ses (c : C)
    type_name message :
  job_id ∈ jobs ses →
  job_result job_id (if wait then wait_for job_id c else c) =
    Failed type_name message →
  get_job_details job_id wait ses c =
    ((JDict [("status",
              JStr (job_state job_id (if wait then wait_for job_id c else c)));
             ("result", JStr (type_name +:+ ": " +:+ message))], 200),
     ses, if wait then wait_for job_id c else c).
Proof.
  intros Hin Hres. unfold get_job_details.
  rewrite bool_decide_eq_false_2 by (by intros Hout). by rewrite Hres.
Qed.
End SessionJobsFacts.


(** C7 at work: [j1] died of a ValueError. *)
Lemma get_job_details_failed_witness :
  get_job_details (Cel:=sample_celery) "j1" false
    (with_jobs empty_session ["j1"]) sample_broker =
    ((JDict [("status", JStr "FAILURE");
             ("result", JStr "ValueError: bad matrix")], 200),
     with_jobs empty_session ["j1"], sample_broker).
Proof.
  apply (get_job_details_failed (Cel:=sample_celery) "j1" false
           (with_jobs empty_session ["j1"]) sample_broker
           "ValueError" "bad matrix"); [left | reflexivity].
Defined.

(** * Further properties *)

(** ** Markers *)

Lemma findall_cons_no_match c s :
  match_marker (String c s) = None → findall (String c s) = findall s.
Proof. intros Hm. unfold findall. simpl String.length. cbn [findall_fuel]. by rewrite Hm. Qed.

Lemma findall_match s m rest :
  match_marker s = Some (m, rest) → findall s = m :: findall rest.
Proof.
  intros Hm. pose proof (match_marker_shorter _ _ _ Hm) as Hlen.
  unfold findall at 1. destruct s as [|c tl]; [done|].
  simpl String.length. cbn [findall_fuel]. rewrite Hm. f_equal.
  apply findall_fuel_enough. simpl in Hlen. lia.
Qed.

Lemma match_marker_not_dollar c s :
  c ≠ dollar → match_marker (String c s) = None.
Proof. intros Hc. destruct s; simpl; [done|]. by case_decide. Qed.

Lemma lazy_until_dollar_body s m rest :
  lazy_until_dollar s = Some (m, rest) →
  ∃ body, m = body +:+ String dollar EmptyString ∧
          has_char dollar body = false ∧ has_char newline body = false.
Proof.
  revert m rest. induction s as [|c tl IH]; intros m rest; simpl; [done|].
  case_decide as Hc.
  { intros [= <- <-]. subst c. by exists EmptyString. }
  case_decide as Hn; [done|].
  destruct (lazy_until_dollar tl) as [[m' rest']|] eqn:Htl; [|done].
  intros [= <- <-]. destruct (IH _ _ eq_refl) as (body & -> & Hd & Hnl).
  exists (String c body). split; [done|]. cbn [has_char].
  split; by case_decide.
Qed.

Lemma lazy_until_dollar_plain body rest :
  has_char dollar body = false → has_char newline body = false →
  lazy_until_dollar (body +:+ String dollar rest) =
    Some (body +:+ String dollar EmptyString, rest).
Proof.
  induction body as [|c body IH]; simpl.
  { by intros _ _. }
  case_decide as Hd; [done|]. case_decide as Hn; [done|].
  intros Hd' Hn'. by rewrite (IH Hd' Hn').
Qed.

Lemma findall_no_dollar s :
  has_char dollar s = false → findall s = [].
Proof.
  induction s as [|c tl IH]; [done|]. simpl.
  case_decide as Hc; [done|]. intros Htl.
  rewrite findall_cons_no_match by (by apply match_marker_not_dollar). auto.
Qed.

(** X1: a template without a dollar holds no marker, and [save_state]
    answers it with the 400 of the missing task ids and stores nothing,
    whatever redis holds. *)
Theorem save_state_without_dollar {IO : IdSetOrder} parse_value uuid p redis :
  has_char dollar (p_state p) = false →
  findall (p_state p) = [] ∧
  save_state parse_value uuid p redis =
    Returned (error no_ids_error 400, redis).
Proof.
  intros Hs%findall_no_dollar. split; [done|].
  unfold save_state, py_set. by rewrite Hs.
Qed.

Lemma save_state_without_dollar_witness :
  has_char dollar (p_state (sample_payload "{x: 1, y: [2, 3]}")) = false ∧
  findall (p_state (sample_payload "{x: 1, y: [2, 3]}")) = [] ∧
  save_state (IO:=first_seen_ids) sample_parse_value "u1"
    (sample_payload "{x: 1, y: [2, 3]}") sample_redis =
    Returned (error no_ids_error 400, sample_redis).
Proof.
  split; [reflexivity|].
  apply (save_state_without_dollar (IO:=first_seen_ids) sample_parse_value "u1"
           (sample_payload "{x: 1, y: [2, 3]}") sample_redis).
  reflexivity.
Defined.

Lemma findall_fuel_shape n s :
  Forall (fun m => ∃ c body,
            m = String dollar (String c (body +:+ String dollar EmptyString)) ∧
            c ≠ newline ∧
            has_char dollar body = false ∧ has_char newline body = false)
         (findall_fuel n s).
Proof.
  revert s. induction n as [|n IH]; intros s; [constructor|].
  destruct s as [|d tl]; [constructor|]. cbn [findall_fuel].
  destruct (match_marker (String d tl)) as [[m rest]|] eqn:Hm; [|apply IH].
  constructor; [|apply IH]. revert Hm.
  destruct tl as [|c tl]; simpl; [done|].
  case_decide as Hd; [|done]. case_decide as Hc; [done|].
  destruct (lazy_until_dollar tl) as [[m' rest']|] eqn:Htl; [|done].
  intros [= <- <-]. apply lazy_until_dollar_body in Htl as (body & -> & ? & ?).
  subst d. by exists c, body.
Qed.

(** X2: every marker that the scan finds is a dollar, a character that is
    no newline, a run of characters that holds neither a dollar nor a
    newline, and a dollar. *)
Theorem findall_marker_shape s m :
  m ∈ findall s →
  ∃ c body,
    m = String dollar (String c (body +:+ String dollar EmptyString)) ∧
    c ≠ newline ∧
    has_char dollar body = false ∧ has_char newline body = false.
Proof.
  intros Hm. pose proof (findall_fuel_shape (String.length s) s) as Hall.
  rewrite Forall_forall in Hall. by apply Hall.
Qed.

Lemma findall_marker_shape_witness :
  "$$a$" ∈ findall "$$a$b$" ∧
  ∃ c body,
    "$$a$" = String dollar (String c (body +:+ String dollar EmptyString)) ∧
    c ≠ newline ∧
    has_char dollar body = false ∧ has_char newline body = false.
Proof.
  split; [left|]. apply (findall_marker_shape "$$a$b$" "$$a$"). left.
Defined.

(** X3: text without a dollar is skipped, and a dollar, a non-empty id on
    one line without a dollar after its first character, and a dollar are
    one marker, after which the scan goes on. *)
Theorem findall_plain_then_marker pre c body rest :
  has_char dollar pre = false →
  c ≠ newline →
  has_char dollar body = false → has_char newline body = false →
  findall (pre +:+ String dollar (String c body) +:+ String dollar rest) =
    String dollar (String c body +:+ String dollar EmptyString) :: findall rest.
Proof.
  intros Hpre Hc Hd Hn.
  induction pre as [|x pre IH].
  - cbn [String.append]. apply findall_match. simpl. case_decide; [done|].
    by rewrite (lazy_until_dollar_plain _ _ Hd Hn).
  - cbn [String.append has_char] in *.
    revert Hpre. case_decide as Hx; [done|]. intros Hpre.
    change (String x pre +:+ ?t) with (String x (pre +:+ t)).
    rewrite findall_cons_no_match by (by apply match_marker_not_dollar). auto.
Qed.

Lemma findall_plain_then_marker_witness :
  findall "{x: $A$, y: $B$}" = "$A$" :: findall ", y: $B$}".
Proof.
  apply (findall_plain_then_marker "{x: " "A" EmptyString ", y: $B$}");
    (reflexivity || discriminate).
Defined.

(** ** Saving a state and asking for it *)

Section SavedStateFacts.
Context {O : SetOrder} {IO : IdSetOrder} {H : Type} {E : ETLHandler H}.
Variable parse_value : string → json.

(** X4: a state is stored, and the answer is 201, exactly when the
    template holds a marker, the task id of every marker can be hashed,
    no two markers hold equal task ids, and redis holds a data state with
    a descriptor for every task id. *)
Theorem save_state_created_iff uuid p redis :
  (∃ resp redis',
     save_state parse_value uuid p redis = Returned (resp, redis') ∧
     status resp = 201) ↔
  findall (p_state p) ≠ [] ∧
  ∃ ids,
    mapM hashed (marker_ids parse_value (p_state p)) = Some ids ∧
    NoDup (id_key <$> ids) ∧
    ∀ id, id ∈ ids → has_descriptor redis id = true.
Proof.
  destruct (save_state_cases parse_value uuid p redis)
    as [[Hnone Hs0]|(ids & Hids & [(resp0 & Hs0 & Hst & Hwhy)
                                  |[(ds & Hs0 & _ & _ & Hm & Hnd & Hall)
                                   |(Hs0 & _ & Hdup & _)]])].
  - split.
    + intros (resp & redis' & Hs & _). by rewrite Hs0 in Hs.
    + intros (_ & ids & Hids & _). congruence.
  - split.
    + intros (resp & redis' & Hs & H201). rewrite Hs0 in Hs. simplify_eq. lia.
    + intros (Hm & ids' & Hids' & Hnd & Hall). exfalso.
      assert (ids' = ids) as -> by congruence.
      destruct Hwhy as [?|Hnot]; [done|].
      rewrite (distinct_ids_same _ Hnd) in Hnot.
      assert (forallb (has_descriptor redis) ids = true) as Hyes; [|congruence].
      apply forallb_forall. intros id Hid. by apply Hall, list_elem_of_In.
  - split; [|intros _; eauto].
    intros _. split; [done|]. exists ids. split; [done|]. split; [done|].
    rewrite (distinct_ids_same _ Hnd), forallb_forall in Hall.
    intros id Hid. by apply Hall, list_elem_of_In.
  - split.
    + intros (resp & redis' & Hs & _). by rewrite Hs0 in Hs.
    + intros (_ & ids' & Hids' & Hnd & _). congruence.
Qed.

Lemma save_state_stored_record uuid p redis resp redis' :
  save_state parse_value uuid p redis = Returned (resp, redis') →
  status resp = 201 →
  ∃ ids descriptors,
    mapM hashed (marker_ids parse_value (p_state p)) = Some ids ∧
    redis' !! state_key uuid =
      Some (json_dumps (meta_state_of (p_state p) p
                          (set_to_list ids) descriptors)) ∧
    Forall2 (descriptor_in redis) (set_to_list ids) descriptors.
Proof.
  intros Hs H201.
  destruct (save_state_cases parse_value uuid p redis)
    as [[_ Hs0]|(ids & Hids & [(resp0 & Hs0 & Hst & _)
                              |[(ds & Hs0 & Hds & _)
                               |(Hs0 & _)]])];
    rewrite Hs0 in Hs; simplify_eq; [lia|].
  exists ids, ds. split; [done|]. split; [apply lookup_insert_eq|].
  by apply collect_descriptors_positions in Hds as (ds' & -> & Hall').
Qed.

(** X5: in the record that a 201 has stored there are as many
    descriptors as task ids, and the descriptor at each position is the
    one of the data state that redis holds for the task id at that
    position. *)
Theorem save_state_descriptors_by_position uuid p redis resp redis' :
  save_state parse_value uuid p redis = Returned (resp, redis') →
  status resp = 201 →
  ∃ task_ids descriptors,
    redis' !! state_key uuid =
      Some (json_dumps (meta_state_of (p_state p) p task_ids descriptors)) ∧
    length descriptors = length task_ids ∧
    ∀ i task_id, task_ids !! i = Some task_id →
      ∃ d, descriptors !! i = Some d ∧ descriptor_in redis task_id d.
Proof.
  intros Hs H201.
  destruct (save_state_stored_record _ _ _ _ _ Hs H201)
    as (ids & ds & _ & Hr & Hall).
  exists (set_to_list ids), ds.
  split; [done|]. split; [symmetry; by eapply Forall2_length|].
  intros i task_id Hi.
  destruct (Forall2_lookup_l _ _ _ _ _ Hall Hi) as (d & Hd & Hin). eauto.
Qed.

(** X6: asking for a state that [save_state] has just stored is never
    answered 404: the handler is built from the saved handler and server
    and the credentials of the request, it is handed the saved
    descriptors, in their order, and the data tasks of the session, and
    the ids it returns are the grant. *)
Theorem request_state_access_after_save uuid p redis resp redis'
    wait auth ses :
  save_state parse_value uuid p redis = Returned (resp, redis') →
  status resp = 201 →
  ∃ ids descriptors,
    mapM hashed (marker_ids parse_value (p_state p)) = Some ids ∧
    Forall2 (descriptor_in redis) (set_to_list ids) descriptors ∧
    request_state_access uuid wait auth ses redis' =
      (etl_handler ← etl_factory (p_handler p) (p_server p) auth;
       '(task_ids, redis'') ←
         etl_handle etl_handler (JList descriptors) (data_tasks ses)
                    true wait redis';
       Returned ((JStr EmptyString, 202),
                 with_grant ses uuid
                   (list_set (data_tasks ses ++ task_ids)) task_ids,
                 redis'')).
Proof.
  intros Hs H201.
  destruct (save_state_stored_record _ _ _ _ _ Hs H201)
    as (ids & ds & Hids & Hr & Hall).
  exists ids, ds. split; [done|]. split; [done|].
  unfold request_state_access. by rewrite Hr.
Qed.
End SavedStateFacts.

Lemma save_state_descriptors_by_position_witness :
  save_state (IO:=first_seen_ids) sample_parse_value "u1" two_markers
    sample_redis = Returned (created_u1, saved_redis) ∧
  status created_u1 = 201 ∧
  ∃ task_ids descriptors,
    saved_redis !! state_key "u1" =
      Some (json_dumps (meta_state_of (p_state two_markers) two_markers
                          task_ids descriptors)) ∧
    length descriptors = length task_ids ∧
    ∀ i task_id, task_ids !! i = Some task_id →
      ∃ d, descriptors !! i = Some d ∧ descriptor_in sample_redis task_id d.
Proof.
  split; [reflexivity|]. split; [reflexivity|].
  apply (save_state_descriptors_by_position (IO:=first_seen_ids)
           sample_parse_value "u1" two_markers sample_redis
           created_u1 saved_redis); reflexivity.
Defined.

Lemma request_state_access_after_save_witness :
  save_state (IO:=first_seen_ids) sample_parse_value "u1" two_markers
    sample_redis = Returned (created_u1, saved_redis) ∧
  status created_u1 = 201 ∧
  ∃ ids descriptors,
    mapM hashed (marker_ids sample_parse_value (p_state two_markers)) =
      Some ids ∧
    Forall2 (descriptor_in sample_redis)
            (set_to_list (IdSetOrder:=first_seen_ids) ids) descriptors ∧
    request_state_access (O:=last_seen_order) (E:=priming_handler)
      "u1" false JNull old_session saved_redis =
      (etl_handler ← etl_factory (ETLHandler:=priming_handler)
                       (p_handler two_markers) (p_server two_markers) JNull;
       '(task_ids, redis'') ←
         etl_handle (ETLHandler:=priming_handler) etl_handler
                    (JList descriptors) (data_tasks old_session)
                    true false saved_redis;
       Returned ((JStr EmptyString, 202),
                 with_grant old_session "u1"
                   (list_set (SetOrder:=last_seen_order)
                      (data_tasks old_session ++ task_ids)) task_ids,
                 redis'')).
Proof.
  split; [reflexivity|]. split; [reflexivity|].
  apply (request_state_access_after_save (O:=last_seen_order)
           (IO:=first_seen_ids) (E:=priming_handler) sample_parse_value
           "u1" two_markers sample_redis
           created_u1 saved_redis false JNull old_session); reflexivity.
Defined.

Section NotFoundFacts.
Context {O : SetOrder} {H : Type} {E : ETLHandler H}.
Variable get_data_state_for_task_id : string → bool → option data_state.
Variable re_sub : json → json → json → outcome json.

(** X7: [request_state_access] answers 404 exactly when redis holds
    nothing, or the empty text, under the key of the state; a text that is
    not empty and is no JSON makes it raise ValueError. *)
Theorem request_state_access_404_iff state_id wait auth ses redis :
  ((∃ resp ses' redis',
      request_state_access state_id wait auth ses redis =
        Returned (resp, ses', redis') ∧
      status resp = 404) ↔
   redis !! state_key state_id = None ∨
   redis !! state_key state_id = Some (RText EmptyString)) ∧
  (∀ s, redis !! state_key state_id = Some (RText s) → s ≠ EmptyString →
        request_state_access state_id wait auth ses redis = Raised ValueError).
Proof.
  split.
  - unfold request_state_access.
    destruct (redis !! state_key state_id) as [[[|c s]|m]|] eqn:Hr; simpl.
    + split; [by right|]. intros _. by eexists _, _, _.
    + split; [by intros (? & ? & ? & ? & ?) | by intros [|]].
    + split; [|by intros [|]].
      intros (resp & ses' & redis' & Hs & H404). exfalso. revert Hs.
      destruct (py_getitem m "handler") as [hd|]; [|done]. simpl.
      destruct (py_getitem m "server") as [sv|]; [|done]. simpl.
      destruct (etl_factory hd sv auth) as [h|]; [|done]. simpl.
      destruct (py_getitem m "descriptors") as [ds|]; [|done]. simpl.
      destruct (etl_handle h ds (data_tasks ses) true wait redis)
        as [[ids r]|]; [|done]. simpl.
      intros [= <- _ _]. by cbv in H404.
    + split; [by left|]. intros _. by eexists _, _, _.
  - intros s Hr Hs. unfold request_state_access. rewrite Hr.
    by destruct s.
Qed.

Lemma check_etls_status wait grant resp :
  check_etls get_data_state_for_task_id wait grant = Some resp →
  status resp = 202 ∨ status resp = 403.
Proof.
  intros (pre & j & post & _ & _ & _ & ->)%check_etls_Some.
  destruct (submitted get_data_state_for_task_id wait j); [by left | by right].
Qed.

(** X8: [get_state_data] answers 404 exactly when the record of the state
    is stored and parses and the session holds no grant for the state. *)
Theorem get_state_data_404_iff state_id wait ses redis :
  status_of (get_state_data get_data_state_for_task_id re_sub
               state_id wait ses redis) = Some 404 ↔
  (∃ meta_state, redis !! state_key state_id = Some (RJson meta_state)) ∧
  state_access ses !! KStr state_id = None.
Proof.
  destruct (redis !! state_key state_id) as [[s|m]|] eqn:Hr.
  - unfold get_state_data. rewrite Hr. simpl.
    split; [done | by intros [[? ?] _]].
  - destruct (state_access ses !! KStr state_id) as [grant|] eqn:Hg.
    + rewrite (get_state_data_granted _ _ _ _ _ _ _ _ Hr Hg).
      split; [|by intros [_ ?]]. intros H404. exfalso.
      destruct (check_etls get_data_state_for_task_id wait grant)
        as [resp|] eqn:Hc.
      * apply check_etls_status in Hc. simpl in H404. simplify_eq. lia.
      * destruct (rewriting_status re_sub (state_access ses) m) as [Hs|Hs];
          rewrite Hs in H404; done.
    + rewrite (get_state_data_no_grant _ _ _ _ _ _ _ Hr Hg).
      split; [|done]. intros _. eauto.
  - unfold get_state_data. rewrite Hr. simpl.
    split; [done | by intros [[? ?] _]].
Qed.
End NotFoundFacts.

Lemma request_state_access_404_iff_witness :
  sample_redis !! state_key "X" = None ∧
  (∃ resp ses' redis',
     request_state_access (O:=last_seen_order) (E:=priming_handler)
       "X" false JNull old_session sample_redis =
       Returned (resp, ses', redis') ∧
     status resp = 404) ∧
  (<[state_key "X" := RText "not json"]> sample_redis) !! state_key "X" =
    Some (RText "not json") ∧
  request_state_access (O:=last_seen_order) (E:=priming_handler)
    "X" false JNull old_session
    (<[state_key "X" := RText "not json"]> sample_redis) = Raised ValueError.
Proof.
  split; [reflexivity|]. split.
  - apply (request_state_access_404_iff (O:=last_seen_order)
             (E:=priming_handler) "X" false JNull old_session sample_redis).
    left. reflexivity.
  - split; [reflexivity|].
    apply (request_state_access_404_iff (O:=last_seen_order)
             (E:=priming_handler) "X" false JNull old_session
             (<[state_key "X" := RText "not json"]> sample_redis))
      with (s := "not json"); [reflexivity | discriminate].
Defined.

(** The general form of what C2 meets, at work: the state that
    [save_state] stored as [u1] and the session that was granted it. *)
Lemma saved_state_is_never_read_witness :
  save_state (IO:=first_seen_ids) sample_parse_value "u1" two_markers
    sample_redis = Returned (created_u1, saved_redis) ∧
  status created_u1 = 201 ∧
  state_access renewed_session !! KStr "u1" = Some ["A'"; "B'"] ∧
  forallb (succeeded sample_data_state true) ["A'"; "B'"] = true ∧
  get_state_data sample_data_state re_sub_keep "u1" true renewed_session
    saved_redis = Raised KeyError.
Proof.
  split; [reflexivity|]. split; [reflexivity|]. split; [reflexivity|].
  split; [reflexivity|].
  apply (saved_state_is_never_read (IO:=first_seen_ids) sample_parse_value
           sample_data_state re_sub_keep "u1" two_markers sample_redis
           created_u1 saved_redis true renewed_session ["A'"; "B'"]);
    try reflexivity.
  intros k [v Hk]. unfold renewed_session, old_session in Hk. simpl in Hk.
  destruct k as [s|n]; [by exists s|].
  rewrite !lookup_insert_ne in Hk by done. by rewrite lookup_empty in Hk.
Defined.

(** ** The jobs of a session, from request to request *)


Section SessionJobsOverTime.
Context {C J : Type} {Cel : Celery C J}.

(** X9: [cancel_job] never raises: [remove] is run only for an id that
    the membership test has found in the list. *)
Theorem cancel_job_never_raises job_id wait ses (c : C) :
  ∃ r, cancel_job job_id wait ses c = Returned r.
Proof.
  unfold cancel_job. case_bool_decide as Hin; [by eexists|].
  destruct (list_remove_elem _ _ Hin) as (js & -> & _). by eexists.
Qed.

(** X10: a job that [create_job] has answered 201 for is a job of the
    session from then on: the id in the answer is the last of its jobs,
    the older jobs are still there, and [get_job_details] answers 200 for
    that id whatever the broker has come to by then. *)
Theorem created_job_is_visible job_name args ses (c : C) resp ses' c'
    (wait : bool) (c'' : C) :
  create_job job_name args ses c = (resp, ses', c') →
  status resp = 201 →
  ∃ id,
    resp = (JDict [("job_id", JStr id)], 201) ∧
    jobs ses' = jobs ses ++ [id] ∧
    ∃ details,
      get_job_details id wait ses' c'' =
        ((details, 200), ses', if wait then wait_for id c'' else c'').
Proof.
  unfold create_job.
  destruct (job_factory job_name) as [job|]; [|by intros [= <- _ _]].
  destruct (delay job args c) as [id c1]. intros [= <- <- <-] _.
  exists id. split; [done|]. split; [done|].
  unfold get_job_details. simpl.
  rewrite bool_decide_eq_false_2; [by eexists|].
  intros Hout. apply Hout. rewrite elem_of_app. right. left.
Qed.


(** X12: a session that lists no job id twice keeps doing so: through
    [create_job], if the id that celery hands out is not one of the
    session already, and through [cancel_job]. *)
Theorem session_jobs_stay_distinct job_name args job_id wait ses (c : C) :
  NoDup (jobs ses) →
  (∀ analytics_job id c',
     job_factory job_name = Some analytics_job →
     delay analytics_job args c = (id, c') →
     id ∉ jobs ses →
     NoDup (jobs (create_job job_name args ses c).1.2)) ∧
  (job_factory job_name = None →
     create_job job_name args ses c =
       ((JDict [("error_msg",
                 JStr ("Job with name '" +:+ job_name +:+ "' not found."))],
         400), ses, c)) ∧
  (∀ resp ses' c',
     cancel_job job_id wait ses c = Returned (resp, ses', c') →
     NoDup (jobs ses')).
Proof.
  intros Hnd. split; [|split].
  - intros job id c' Hf Hd Hfresh. unfold create_job. rewrite Hf, Hd. simpl.
    apply NoDup_app. split; [done|]. split; [|apply NoDup_singleton].
    intros x Hx ->%list_elem_of_singleton. done.
  - apply create_job_unknown.
  - intros resp ses' c'. unfold cancel_job.
    case_bool_decide as Hin; [by intros [= _ <- _]|].
      destruct (list_remove_elem _ _ Hin) as (js & -> & Hperm). simpl.
    intros [= _ <- _]. simpl. rewrite Hperm in Hnd.
    by apply NoDup_cons in Hnd as [_ ?].
Qed.
End SessionJobsOverTime.

(** X13: [prepare_session] makes the session permanent and sees to it
    that it has a list of jobs, without touching what it holds: a list of
    jobs that is there is kept, so is every other key, and running the
    hook again changes nothing. *)
Theorem prepare_session_keeps_jobs s :
  permanent (prepare_session s) = true ∧
  is_Some (session_keys (prepare_session s) !! "jobs") ∧
  (session_keys s !! "jobs" = None →
   session_keys (prepare_session s) !! "jobs" = Some (JList [])) ∧
  (∀ k v, session_keys s !! k = Some v →
          session_keys (prepare_session s) !! k = Some v) ∧
  (∀ k, k ≠ "jobs" →
        session_keys (prepare_session s) !! k = session_keys s !! k) ∧
  prepare_session (prepare_session s) = prepare_session s.
Proof.
  unfold prepare_session. simpl.
  case_bool_decide as Hj; simpl.
  - rewrite lookup_insert_eq. rewrite bool_decide_eq_false_2 by done.
    split; [done|]. split; [by eexists|]. split; [done|]. split; [|split].
    + intros k v Hk. rewrite lookup_insert_ne; [done|]. congruence.
    + intros k Hk. by rewrite lookup_insert_ne.
    + done.
  - rewrite bool_decide_eq_false_2 by done.
    split; [done|]. split; [|done].
    by destruct (session_keys s !! "jobs"); [eexists|].
Qed.

Lemma created_job_is_visible_witness :
  status (JDict [("job_id", JStr "j2")], 201) = 201 ∧
  ∃ id,
    (JDict [("job_id", JStr "j2")], 201) = (JDict [("job_id", JStr id)], 201) ∧
    jobs (with_jobs empty_session ["j1"; "j2"]) =
      jobs (with_jobs empty_session ["j1"]) ++ [id] ∧
    ∃ details,
      get_job_details (Cel:=sample_celery) id true
        (with_jobs empty_session ["j1"; "j2"]) sample_broker =
        ((details, 200), with_jobs empty_session ["j1"; "j2"],
         wait_for (Celery:=sample_celery) id sample_broker).
Proof.
  split; [reflexivity|].
  apply (created_job_is_visible (Cel:=sample_celery) "compute-pca" JNull
           (with_jobs empty_session ["j1"]) sample_broker
           (JDict [("job_id", JStr "j2")], 201)
           (with_jobs empty_session ["j1"; "j2"])
           (delay (Celery:=sample_celery) "compute-pca" JNull sample_broker).2
           true sample_broker); reflexivity.
Defined.


Lemma session_jobs_stay_distinct_witness :
  NoDup (jobs (with_jobs empty_session ["j1"])) ∧
  ("j2" ∉ jobs (with_jobs empty_session ["j1"])) ∧
  NoDup (jobs (create_job (Cel:=sample_celery) "compute-pca" JNull
                 (with_jobs empty_session ["j1"]) sample_broker).1.2).
Proof.
  assert (NoDup (jobs (with_jobs empty_session ["j1"]))) as Hnd
    by (cbn; apply NoDup_singleton).
  assert ("j2" ∉ jobs (with_jobs empty_session ["j1"])) as Hfresh
    by (cbn; by intros ?%list_elem_of_singleton).
  split; [exact Hnd|]. split; [exact Hfresh|].
  destruct (session_jobs_stay_distinct (Cel:=sample_celery) "compute-pca"
              JNull "j1" false (with_jobs empty_session ["j1"]) sample_broker
              Hnd) as (Hcreate & _ & _).
  apply (Hcreate "compute-pca" "j2"
           (delay (Celery:=sample_celery) "compute-pca" JNull sample_broker).2);
    [reflexivity | reflexivity | exact Hfresh].
Defined.

(** ** The clustering task *)

Section SortedReverse.
Context {A : Type} (key : A → nat).

Lemma insert_by_Permutation x l : insert_by key x l ≡ₚ x :: l.
Proof.
  induction l as [|y rest IH]; simpl; [done|].
  case_decide; [|done]. rewrite IH. apply Permutation_swap.
Qed.

Lemma sorted_reverse_Permutation l : sorted_reverse key l ≡ₚ l.
Proof.
  induction l as [|x rest IH]; simpl; [done|].
  unfold sorted_reverse in *. simpl. by rewrite insert_by_Permutation, IH.
Qed.

Lemma insert_by_sorted x l :
  StronglySorted (fun a b => key b ≤ key a) l →
  StronglySorted (fun a b => key b ≤ key a) (insert_by key x l).
Proof.
  induction l as [|y rest IH]; simpl.
  { intros _. apply StronglySorted_cons. split; constructor. }
  intros Hs. pose proof Hs as [Hy Hrest]%StronglySorted_cons.
  case_decide as Hlt.
  - apply StronglySorted_cons. split; [|by apply IH].
    rewrite insert_by_Permutation. constructor; [lia | done].
  - apply StronglySorted_cons. split; [|done].
    constructor; [lia|]. eapply Forall_impl; [exact Hy|].
    intros z Hz. simpl in Hz. lia.
Qed.

Lemma sorted_reverse_sorted l :
  StronglySorted (fun a b => key b ≤ key a) (sorted_reverse key l).
Proof.
  induction l as [|x rest IH]; [constructor|].
  unfold sorted_reverse in *. simpl. by apply insert_by_sorted.
Qed.

Lemma insert_by_filter k x l :
  filter (fun a => key a = k) (insert_by key x l) =
  filter (fun a => key a = k) (x :: l).
Proof.
  induction l as [|y rest IH]; simpl; [done|].
  case_decide as Hlt; [|done].
  rewrite (filter_cons _ y), IH, !(filter_cons _ x), (filter_cons _ y).
  repeat case_decide; try done; lia.
Qed.

Lemma sorted_reverse_stable k l :
  filter (fun a => key a = k) (sorted_reverse key l) =
  filter (fun a => key a = k) l.
Proof.
  induction l as [|x rest IH]; [done|].
  unfold sorted_reverse in *. simpl.
  by rewrite insert_by_filter, !(filter_cons _ x), IH.
Qed.
End SortedReverse.

(** X14: [sorted(zip(names, cluster), key=..., reverse=True)] holds the
    pairs of [zip(names, cluster)], each as often as it was there, the
    pairs of the bigger clusters before those of the smaller, and the
    pairs of clusters of one size in the order they had. *)
Theorem sorted_cluster_by_size names cluster :
  sorted_cluster names cluster ≡ₚ zip names cluster ∧
  StronglySorted
    (fun x y => cluster_count cluster y.2 ≤ cluster_count cluster x.2)
    (sorted_cluster names cluster) ∧
  ∀ size,
    filter (fun x => cluster_count cluster x.2 = size)
           (sorted_cluster names cluster) =
    filter (fun x => cluster_count cluster x.2 = size) (zip names cluster).
Proof.
  unfold sorted_cluster. split; [apply sorted_reverse_Permutation|].
  split; [apply (sorted_reverse_sorted (fun x => cluster_count cluster x.2))|].
  intros size. apply (sorted_reverse_stable (fun x => cluster_count cluster x.2)).
Qed.

Lemma relabel_from_length c prev cluster :
  length (relabel_from c prev cluster) = length cluster.
Proof.
  revert c prev. induction cluster as [|v rest IH]; intros c prev; simpl;
    [done | by rewrite IH].
Qed.

Lemma relabeled_cluster_length cluster :
  length (relabeled_cluster cluster) = length cluster.
Proof. destruct cluster; simpl; [done | by rewrite relabel_from_length]. Qed.

Lemma relabel_from_ge c prev cluster n :
  n ∈ relabel_from c prev cluster → c ≤ n.
Proof.
  revert c prev. induction cluster as [|v rest IH]; intros c prev; simpl.
  { by intros ?%elem_of_nil. }
  intros [->|Hn%IH]%elem_of_cons; case_decide; lia.
Qed.

Lemma relabel_from_no_gap c prev cluster n m :
  n ∈ relabel_from c prev cluster → c < m ≤ n →
  m ∈ relabel_from c prev cluster.
Proof.
  revert c prev. induction cluster as [|v rest IH]; intros c prev; simpl.
  { by intros ?%elem_of_nil. }
  set (c' := if decide (v ≠ prev) then S c else c).
  assert (c' = c ∨ c' = S c) as Hc' by (unfold c'; case_decide; auto).
  intros Hn Hm. destruct (decide (m = c')) as [->|Hne]; [left|].
  right. apply elem_of_cons in Hn as [->|Hn]; [lia|].
  apply IH; [done|]. apply relabel_from_ge in Hn. lia.
Qed.

Lemma relabel_from_sorted c prev cluster :
  StronglySorted le (relabel_from c prev cluster).
Proof.
  revert c prev. induction cluster as [|v rest IH]; intros c prev; simpl;
    [constructor|].
  apply StronglySorted_cons. split; [|apply IH].
  apply Forall_forall. intros n Hn. by apply relabel_from_ge in Hn.
Qed.

(** An element that still has the label the loop came with is of the
    cluster the loop came from. *)
Lemma relabel_from_same c prev cluster i x :
  cluster !! i = Some x → relabel_from c prev cluster !! i = Some c →
  x = prev.
Proof.
  revert c prev i. induction cluster as [|v rest IH]; intros c prev i; [done|].
  simpl. set (c' := if decide (v ≠ prev) then S c else c).
  destruct i as [|i]; simpl.
  - intros [= <-] [= Hc']. unfold c' in Hc'.
    by case_decide as Hv; [lia|].
  - intros Hx Hn.
    assert (c' ≤ c) as Hle.
    { eapply relabel_from_ge, list_elem_of_lookup_2, Hn. }
    assert (c' = c ∧ v = prev) as [Hc' ->].
    { unfold c' in *. by case_decide as Hv; [lia|]. }
    rewrite Hc' in Hn. by eapply IH.
Qed.

(** Two elements with one new label had one old label. *)
Lemma relabeled_cluster_same cluster i j u v a :
  cluster !! i = Some u → cluster !! j = Some v →
  relabeled_cluster cluster !! i = Some a →
  relabeled_cluster cluster !! j = Some a →
  u = v.
Proof.
  assert (∀ c prev l i j u v a,
            i < j →
            (prev :: l) !! i = Some u → (prev :: l) !! j = Some v →
            (c :: relabel_from c prev l) !! i = Some a →
            (c :: relabel_from c prev l) !! j = Some a →
            u = v) as Hlt.
  { intros c prev l. revert c prev.
    induction l as [|w l IH]; intros c prev i' j' u' v' a' Hij.
    { destruct i', j'; simpl; try lia; done. }
    destruct i' as [|i'], j' as [|j']; try lia.
    - simpl. intros [= <-] Hv [= <-] Ha. symmetry.
      by eapply (relabel_from_same c prev (w :: l)).
    - simpl. apply IH. lia. }
  destruct cluster as [|v0 rest]; [done|]. simpl.
  intros Hu Hv Ha Hb.
  destruct (Nat.lt_trichotomy i j) as [Hij|[->|Hji]].
  - by eapply Hlt.
  - congruence.
  - symmetry. by eapply Hlt.
Qed.

(** X15: the new labels are as many as the old ones, they start at 0,
    never go down along the list, and leave no number out; two elements
    next to each other share the new label exactly when they share the
    old one, and two elements anywhere with one new label had one old
    label. *)
Theorem relabeled_cluster_shape cluster :
  length (relabeled_cluster cluster) = length cluster ∧
  StronglySorted le (relabeled_cluster cluster) ∧
  (∀ n m, n ∈ relabeled_cluster cluster → m ≤ n →
          m ∈ relabeled_cluster cluster) ∧
  (∀ i u v a b,
     cluster !! i = Some u → cluster !! S i = Some v →
     relabeled_cluster cluster !! i = Some a →
     relabeled_cluster cluster !! S i = Some b →
     b = if decide (v = u) then a else S a) ∧
  (∀ i j u v a,
     cluster !! i = Some u → cluster !! j = Some v →
     relabeled_cluster cluster !! i = Some a →
     relabeled_cluster cluster !! j = Some a →
     u = v).
Proof.
  split; [apply relabeled_cluster_length|].
  destruct cluster as [|v0 rest]; simpl.
  { split; [constructor|]. split; [by intros ?? ?%elem_of_nil|].
    split; by intros. }
  split; [|split; [|split]].
  - apply StronglySorted_cons. split; [|apply relabel_from_sorted].
    apply Forall_forall. intros. lia.
  - intros n m Hn Hm. destruct m as [|m]; [left|]. right.
    apply elem_of_cons in Hn as [->|Hn]; [lia|].
    eapply relabel_from_no_gap; [done|lia].
  - assert (∀ c prev l i u v a b,
              (prev :: l) !! i = Some u → (prev :: l) !! S i = Some v →
              (c :: relabel_from c prev l) !! i = Some a →
              (c :: relabel_from c prev l) !! S i = Some b →
              b = if decide (v = u) then a else S a) as Hstep.
    { intros c prev l. revert c prev.
      induction l as [|w l IH]; intros c prev i u v a b.
      { destruct i; simpl; [done|]. by destruct i. }
      destruct i as [|i].
      - simpl. intros [= <-] [= <-] [= <-] [= <-].
        repeat case_decide; congruence.
      - simpl. apply IH. }
    apply Hstep.
  - intros i j u v a. apply (relabeled_cluster_same (v0 :: rest)).
Qed.

Section Relabelling.
Variable g : Z → nat.

(** In a list that is sorted by [g], on which [g] tells the clusters
    apart, an element gets the label the loop came with exactly when it
    is of the cluster the loop came from. *)
Lemma relabel_from_sorted_by c prev cluster i x n :
  StronglySorted (fun u v => g v ≤ g u) (prev :: cluster) →
  (∀ u v, u ∈ prev :: cluster → v ∈ prev :: cluster → g u = g v → u = v) →
  cluster !! i = Some x → relabel_from c prev cluster !! i = Some n →
  (x = prev → n = c) ∧ (x ≠ prev → c < n) ∧ g x ≤ g prev.
Proof.
  revert c prev i.
  induction cluster as [|w rest IH]; intros c prev i Hs Hinj; [done|].
  pose proof Hs as [Hprev Hs']%StronglySorted_cons.
  pose proof Hs' as [Hw _]%StronglySorted_cons.
  rewrite Forall_forall in Hprev, Hw.
  simpl. set (c' := if decide (w ≠ prev) then S c else c).
  destruct i as [|i]; simpl.
  - intros [= <-] [= <-]. unfold c'.
    split; [|split]; [by case_decide | by case_decide; [lia|] |].
    apply Hprev. left.
  - intros Hx Hn.
    destruct (IH c' w i Hs') as (Hsame & Hother & Hgx); [|done..|].
    { intros u v Hu Hv. apply Hinj; by right. }
    assert (x ∈ rest) as Hxin by (by eapply list_elem_of_lookup_2).
    split; [|split].
    + intros ->.
      assert (w = prev) as ->.
      { apply Hinj; [right; left | left |].
        apply Nat.le_antisymm; [apply Hprev; left | done]. }
      unfold c' in Hsame. rewrite decide_False in Hsame by (by intros ?).
      by apply Hsame.
    + intros Hne. destruct (decide (x = w)) as [->|Hxw].
      * rewrite (Hsame eq_refl). unfold c'. case_decide; [lia | done].
      * specialize (Hother Hxw). unfold c' in Hother. case_decide; lia.
    + apply Hprev. by right.
Qed.

Lemma relabeled_sorted_by cluster i j u v a b :
  StronglySorted (fun u v => g v ≤ g u) cluster →
  (∀ u v, u ∈ cluster → v ∈ cluster → g u = g v → u = v) →
  i < j →
  cluster !! i = Some u → cluster !! j = Some v →
  relabeled_cluster cluster !! i = Some a →
  relabeled_cluster cluster !! j = Some b →
  a ≤ b ∧ g v ≤ g u ∧ (a = b ↔ u = v).
Proof.
  revert i j u v a b. destruct cluster as [|prev l]; [done|]. simpl.
  generalize 0 as c. revert prev.
  induction l as [|w l IH]; intros prev c i j u v a b Hs Hinj Hij.
  { destruct i, j; simpl; try lia; done. }
  destruct i as [|i], j as [|j]; try lia.
  - cbn [lookup list_lookup]. intros [= ->] Hv [= ->] Hb.
    destruct (relabel_from_sorted_by a u (w :: l) j v b Hs Hinj Hv Hb)
      as (Hsame & Hother & Hg).
    split; [|split; [done|]].
    + destruct (decide (v = u)) as [Heq|Hne]; [rewrite (Hsame Heq); lia|].
      specialize (Hother Hne). lia.
    + split; [|by intros <-; symmetry; apply Hsame].
      intros <-. destruct (decide (v = u)) as [|Hne]; [done|].
      specialize (Hother Hne). lia.
  - pose proof Hs as [_ Hs']%StronglySorted_cons.
    change ((prev :: w :: l) !! S i) with ((w :: l) !! i).
    change ((prev :: w :: l) !! S j) with ((w :: l) !! j).
    cbn [relabel_from].
    set (c' := if decide (w ≠ prev) then S c else c).
    change ((c :: c' :: relabel_from c' w l) !! S i)
      with ((c' :: relabel_from c' w l) !! i).
    change ((c :: c' :: relabel_from c' w l) !! S j)
      with ((c' :: relabel_from c' w l) !! j).
    apply IH; [done | | lia].
    intros x y Hx Hy. apply Hinj; by right.
Qed.
End Relabelling.

Lemma zip_fst_take (names : list json) (cluster : list Z) :
  (zip names cluster).*1 = take (length cluster) names.
Proof.
  revert cluster. induction names as [|x names IH]; intros [|v cluster];
    simpl; try done.
  by rewrite IH.
Qed.

Lemma sorted_cluster_labels names cluster v :
  v ∈ (sorted_cluster names cluster).*2 → v ∈ cluster.
Proof.
  intros ([x w] & -> & Hx)%list_elem_of_fmap.
  unfold sorted_cluster in Hx. rewrite sorted_reverse_Permutation in Hx.
  by apply elem_of_zip_r in Hx.
Qed.

Lemma sorted_cluster_labels_sorted names cluster :
  StronglySorted (fun u v => cluster_count cluster v ≤ cluster_count cluster u)
                 ((sorted_cluster names cluster).*2).
Proof.
  eapply StronglySorted_fmap;
    [|apply (sorted_reverse_sorted (fun x => cluster_count cluster x.2))].
  by intros x y.
Qed.

Lemma cluster_count_elem cluster v :
  v ∉ cluster → cluster_count cluster v = 0.
Proof.
  induction cluster as [|x rest IH]; simpl; [done|].
  intros [Hne Hrest]%not_elem_of_cons. case_decide; [congruence | auto].
Qed.

(** X16: when no two clusters have the same size, the new labels name the
    clusters: two elements share the new label exactly when they shared
    the old one, and the smaller new label goes to the bigger cluster. *)
Theorem by_cluster_size_consistent names cluster i j u v a b :
  (∀ u v, u ∈ cluster → v ∈ cluster →
          cluster_count cluster u = cluster_count cluster v → u = v) →
  (sorted_cluster names cluster).*2 !! i = Some u →
  (sorted_cluster names cluster).*2 !! j = Some v →
  (by_cluster_size names cluster).2 !! i = Some a →
  (by_cluster_size names cluster).2 !! j = Some b →
  (a = b ↔ u = v) ∧
  (a < b ↔ cluster_count cluster v < cluster_count cluster u).
Proof.
  intros Hinj Hu Hv Ha Hb. unfold by_cluster_size in Ha, Hb. simpl in Ha, Hb.
  set (old := (sorted_cluster names cluster).*2) in *.
  assert (∀ x y, x ∈ old → y ∈ old →
                 cluster_count cluster x = cluster_count cluster y → x = y)
    as Hinj'.
  { intros x y Hx%sorted_cluster_labels Hy%sorted_cluster_labels.
    by apply Hinj. }
  pose proof (sorted_cluster_labels_sorted names cluster) as Hs.
  fold old in Hs.
  assert (u ∈ old) as Huin by (by eapply list_elem_of_lookup_2).
  assert (v ∈ old) as Hvin by (by eapply list_elem_of_lookup_2).
  destruct (Nat.lt_trichotomy i j) as [Hij|[->|Hji]].
  - destruct (relabeled_sorted_by (cluster_count cluster) old i j u v a b
                Hs Hinj' Hij Hu Hv Ha Hb) as (Hab & Hg & Hiff).
    split; [done|]. split.
    + intros Hlt. destruct (decide (cluster_count cluster v =
                                    cluster_count cluster u)) as [Heq|]; [|lia].
      apply Hinj' in Heq; [|done..]. symmetry in Heq. apply Hiff in Heq. lia.
    + intros Hlt. destruct (decide (a = b)) as [Heq|]; [|lia].
      apply Hiff in Heq. subst. lia.
  - simplify_eq. split; [done|]. lia.
  - destruct (relabeled_sorted_by (cluster_count cluster) old j i v u b a
                Hs Hinj' Hji Hv Hu Hb Ha) as (Hab & Hg & Hiff).
    split; [split; intros; symmetry; by apply Hiff|]. lia.
Qed.

(** X17: when every label of [cluster] has its name, the elements that
    get the new label 0 are of one cluster, and no cluster is bigger. *)
Theorem by_cluster_size_biggest_first names cluster i u :
  length cluster ≤ length names →
  (sorted_cluster names cluster).*2 !! i = Some u →
  (by_cluster_size names cluster).2 !! i = Some 0 →
  (sorted_cluster names cluster).*2 !! 0 = Some u ∧
  ∀ v, cluster_count cluster v ≤ cluster_count cluster u.
Proof.
  intros Hlen Hu Ha. unfold by_cluster_size in Ha. simpl in Ha.
  pose proof (sorted_cluster_labels_sorted names cluster) as Hs.
  assert ((sorted_cluster names cluster).*2 ≡ₚ cluster) as Hperm.
  { unfold sorted_cluster. rewrite sorted_reverse_Permutation.
    by rewrite snd_zip. }
  destruct ((sorted_cluster names cluster).*2) as [|u0 old] eqn:Hold; [done|].
  assert (u = u0) as ->.
  { by eapply (relabeled_cluster_same (u0 :: old) i 0 u u0 0). }
  split; [done|]. intros v.
  destruct (decide (v ∈ cluster)) as [Hv|Hv];
    [|rewrite (cluster_count_elem _ _ Hv); lia].
  rewrite <- Hperm in Hv.
  apply StronglySorted_cons in Hs as [Hhd _]. rewrite Forall_forall in Hhd.
  apply elem_of_cons in Hv as [->|Hv]; [done | by apply Hhd].
Qed.

(** X18: the names and the labels that come back are equally many, as
    many as the shorter of [names] and [cluster], and the names are those
    that [zip] has taken, each as often as it was there. *)
Theorem by_cluster_size_lengths names cluster :
  length (by_cluster_size names cluster).1 =
    length names `min` length cluster ∧
  length (by_cluster_size names cluster).2 =
    length names `min` length cluster ∧
  (by_cluster_size names cluster).1 ≡ₚ take (length cluster) names.
Proof.
  unfold by_cluster_size. simpl.
  assert (length (sorted_cluster names cluster) =
          length names `min` length cluster) as Hlen.
  { unfold sorted_cluster. rewrite sorted_reverse_Permutation.
    apply length_zip_with. }
  split; [by rewrite length_fmap|].
  split; [by rewrite relabeled_cluster_length, length_fmap|].
  unfold sorted_cluster. rewrite sorted_reverse_Permutation.
  by rewrite zip_fst_take.
Qed.


Lemma mandatory_missing d k msg :
  assoc k d = None → mandatory (JDict d) k msg = Thrown (TaskValueError msg).
Proof. intros Hk. unfold mandatory. simpl. by rewrite Hk. Qed.

Lemma mandatory_dict d k msg :
  mandatory (JDict d) k msg = Thrown (TaskValueError msg) ∨
  ∃ v, mandatory (JDict d) k msg = Fine v.
Proof.
  unfold mandatory. simpl. destruct (assoc k d); [right; by eexists | by left].
Qed.

Section ClusteringTaskFacts.
Context {F : Type} {Fr : Frames F}.

(** X19: a text that [read_json] does not take is answered with the
    ValueError of the parse, whatever the algorithm; for an algorithm
    other than hclust and kmeans there is never a result, and once the
    frame is read and filled the ValueError names the algorithm. *)
Theorem main_unknown_algorithm draws df cluster_algo options :
  (read_json df = None →
   ClusteringTask.main draws df cluster_algo options =
     Thrown (TaskValueError "Failed to parse string to data frame.")) ∧
  (cluster_algo ≠ "hclust" → cluster_algo ≠ "kmeans" →
   (∀ r, ClusteringTask.main draws df cluster_algo options ≠ Fine r) ∧
   (∀ f f', read_json df = Some f → fill_medians f = Fine f' →
      ClusteringTask.main draws df cluster_algo options =
        Thrown (TaskValueError
                  ("Algorithm not implemented: '" +:+ cluster_algo +:+ "'")))).
Proof.
  unfold ClusteringTask.main. split.
  - by intros ->.
  - intros Hh Hk. split.
    + intros r. destruct (read_json df) as [f|]; [|done].
      destruct (fill_medians f) as [f'|]; [|done]. simpl.
      by rewrite !decide_False by done.
    + intros f f' -> ->. simpl. by rewrite !decide_False by done.
Qed.

(** X20: once the frame is read and filled, options that lack one of the
    mandatory parameters of the algorithm are answered with the
    ValueError that lists them, before any clustering is run. *)
Theorem main_missing_option draws df f f' d :
  read_json df = Some f → fill_medians f = Fine f' →
  (assoc "method" d = None ∨ assoc "metric" d = None ∨
   assoc "n_row_clusters" d = None ∨ assoc "n_col_clusters" d = None →
   ClusteringTask.main draws df "hclust" (JDict d) =
     Thrown (TaskValueError hclust_mandatory)) ∧
  (assoc "n_row_centroids" d = None ∨ assoc "n_col_centroids" d = None →
   ClusteringTask.main draws df "kmeans" (JDict d) =
     Thrown (TaskValueError kmeans_mandatory)).
Proof.
  intros Hr Hf. unfold ClusteringTask.main. rewrite Hr, Hf. simpl. split.
  - unfold ClusteringTask.hclust. intros Hmiss.
    destruct (mandatory_dict d "method" hclust_mandatory) as [->|[v1 H1]];
      [done|].
    destruct (mandatory_dict d "metric" hclust_mandatory) as [H2|[v2 H2]];
      [by rewrite H1, H2|].
    destruct (mandatory_dict d "n_row_clusters" hclust_mandatory)
      as [H3|[v3 H3]]; [by rewrite H1, H2, H3|].
    destruct (mandatory_dict d "n_col_clusters" hclust_mandatory)
      as [H4|[v4 H4]]; [by rewrite H1, H2, H3, H4|].
    exfalso. destruct Hmiss as [Hm|[Hm|[Hm|Hm]]];
      apply (mandatory_missing _ _ hclust_mandatory) in Hm; congruence.
  - unfold ClusteringTask.kmeans. intros Hmiss.
    destruct (mandatory_dict d "n_row_centroids" kmeans_mandatory)
      as [->|[v1 H1]]; [done|].
    destruct (mandatory_dict d "n_col_centroids" kmeans_mandatory)
      as [H2|[v2 H2]]; [by rewrite H1, H2|].
    exfalso. destruct Hmiss as [Hm|Hm];
      apply (mandatory_missing _ _ kmeans_mandatory) in Hm; congruence.
Qed.

End ClusteringTaskFacts.

Lemma sample_cluster_sizes_differ u v :
  u ∈ sample_cluster → v ∈ sample_cluster →
  cluster_count sample_cluster u = cluster_count sample_cluster v → u = v.
Proof.
  unfold sample_cluster. intros Hu Hv.
  repeat (apply elem_of_cons in Hu as [->|Hu]);
    try (by apply elem_of_nil in Hu);
    repeat (apply elem_of_cons in Hv as [->|Hv]);
    try (by apply elem_of_nil in Hv);
    vm_compute; congruence.
Defined.

Lemma by_cluster_size_consistent_witness :
  (sorted_cluster sample_names sample_cluster).*2 !! 0 = Some 7%Z ∧
  (sorted_cluster sample_names sample_cluster).*2 !! 2 = Some 5%Z ∧
  (by_cluster_size sample_names sample_cluster).2 !! 0 = Some 0 ∧
  (by_cluster_size sample_names sample_cluster).2 !! 2 = Some 1 ∧
  (0 = 1 ↔ 7%Z = 5%Z) ∧
  (0 < 1 ↔ cluster_count sample_cluster 5 < cluster_count sample_cluster 7).
Proof.
  split; [reflexivity|]. split; [reflexivity|]. split; [reflexivity|].
  split; [reflexivity|].
  apply (by_cluster_size_consistent sample_names sample_cluster 0 2);
    [exact sample_cluster_sizes_differ | reflexivity..].
Defined.

Lemma by_cluster_size_biggest_first_witness :
  length sample_cluster ≤ length sample_names ∧
  (sorted_cluster sample_names sample_cluster).*2 !! 1 = Some 7%Z ∧
  (by_cluster_size sample_names sample_cluster).2 !! 1 = Some 0 ∧
  (sorted_cluster sample_names sample_cluster).*2 !! 0 = Some 7%Z ∧
  ∀ v, cluster_count sample_cluster v ≤ cluster_count sample_cluster 7.
Proof.
  split; [vm_compute; lia|]. split; [reflexivity|]. split; [reflexivity|].
  apply (by_cluster_size_biggest_first sample_names sample_cluster 1);
    [vm_compute; lia | reflexivity | reflexivity].
Defined.

Lemma main_missing_option_witness :
  read_json (Frames:=sample_frames) "frame" =
    Some (zip sample_names sample_cluster) ∧
  fill_medians (Frames:=sample_frames) (zip sample_names sample_cluster) =
    Fine (zip sample_names sample_cluster) ∧
  ClusteringTask.main (Fr:=sample_frames) (0, 1) "frame" "hclust"
    (JDict [("method", JStr "average")]) =
    Thrown (TaskValueError hclust_mandatory) ∧
  ClusteringTask.main (Fr:=sample_frames) (0, 1) "frame" "kmeans"
    (JDict [("method", JStr "average")]) =
    Thrown (TaskValueError kmeans_mandatory).
Proof.
  split; [reflexivity|]. split; [reflexivity|].
  destruct (main_missing_option (Fr:=sample_frames) (0, 1) "frame"
              (zip sample_names sample_cluster)
              (zip sample_names sample_cluster)
              [("method", JStr "average")] eq_refl eq_refl) as [Hh Hk].
  split; [apply Hh; right; left; reflexivity | apply Hk; left; reflexivity].
Defined.


(** ** The highdim ETL *)

Section HighdimFacts.
Context {R : Type}.
Implicit Types raw_data descriptor entry : pyval R.

(** X22: [can_handle] says no for every handler but transmart without
    looking at the descriptor; it says yes exactly for transmart with a
    dict whose [data_type] is the text highdim; and for transmart with a
    dict that has no [data_type] it raises KeyError. *)
Theorem can_handle_highdim handler descriptor :
  (handler ≠ "transmart" →
   HighdimETL.can_handle handler descriptor = Fine false) ∧
  (HighdimETL.can_handle handler descriptor = Fine true ↔
   handler = "transmart" ∧
   ∃ d, descriptor = VDict d ∧
        dict_get "data_type" d = Some (VStr "highdim")) ∧
  (handler = "transmart" →
   ∀ d, descriptor = VDict d → dict_get "data_type" d = None →
        HighdimETL.can_handle handler descriptor = Thrown TaskKeyError).
Proof.
  unfold HighdimETL.can_handle. split; [|split].
  - intros Hne. by rewrite decide_False.
  - case_decide as Hh; [|split; [done | by intros [? _]]].
    split.
    + intros Hc. split; [done|].
      destruct descriptor as [| | | | s | l | d]; simpl in Hc; try done.
      destruct (dict_get "data_type" d) as [v|] eqn:Hd; [|done].
      simpl in Hc. exists d. split; [done|].
      destruct v as [| | | | s | |]; simpl in Hc; try done.
      injection Hc as Hs. apply bool_decide_eq_true in Hs. by subst.
    + intros (_ & d & -> & Hd). simpl. by rewrite Hd.
  - intros -> d -> Hd. simpl. by rewrite Hd.
Qed.

Lemma tried_bind_Fine {A B} (m : tried A) (k : A → tried B) b :
  m ≫= k = Fine b → ∃ a, m = Fine a ∧ k a = Fine b.
Proof. destruct m as [a|]; [|done]. by exists a. Qed.

Lemma row_of_value raw_data entry id value :
  HighdimETL.row_of raw_data entry = Fine (id, value) →
  subscript entry (VStr "numericValue") = Fine value.
Proof.
  unfold HighdimETL.row_of.
  intros (dims & _ & Hrow)%tried_bind_Fine.
  apply tried_bind_Fine in Hrow as (idx & _ & Hrow).
  apply tried_bind_Fine in Hrow as (elements & _ & Hrow).
  apply tried_bind_Fine in Hrow as (patients & _ & Hrow).
  apply tried_bind_Fine in Hrow as (patient & _ & Hrow).
  apply tried_bind_Fine in Hrow as (id' & _ & Hrow).
  apply tried_bind_Fine in Hrow as (value' & Hv & Hrow).
  by injection Hrow as -> ->.
Qed.

Lemma rows_of_map raw_data entries rows out :
  HighdimETL.rows_of raw_data entries rows = Fine out →
  ∃ new, out = rows ++ new ∧
         Forall2 (fun entry row => HighdimETL.row_of raw_data entry = Fine row)
                 entries new.
Proof.
  revert rows. induction entries as [|entry rest IH]; intros rows; simpl.
  { intros [= <-]. exists []. by rewrite app_nil_r. }
  destruct (HighdimETL.row_of raw_data entry) as [row|] eqn:Hrow; [|done].
  simpl. intros (new & -> & Hall)%IH. exists (row :: new).
  rewrite <- app_assoc. split; [done|]. by constructor.
Qed.

(** X23: when [transform] returns, it returns one row per cell, in the
    order of the cells, and the row of a cell is its patient's id, looked
    up through the third dimension index of the cell, and its numeric
    value; the descriptor plays no part. *)
Theorem transform_rows raw_data descriptor rows :
  HighdimETL.transform raw_data descriptor = Fine rows →
  ∃ cells entries,
    subscript raw_data (VStr "cells") = Fine cells ∧
    iterate cells = Fine entries ∧
    length rows = length entries ∧
    ∀ i entry, entries !! i = Some entry →
      ∃ id value,
        rows !! i = Some (id, value) ∧
        subscript entry (VStr "numericValue") = Fine value ∧
        HighdimETL.row_of raw_data entry = Fine (id, value).
Proof.
  unfold HighdimETL.transform.
  destruct (subscript raw_data (VStr "cells")) as [cells|] eqn:Hc; [|done].
  simpl.
  destruct (iterate cells) as [entries|] eqn:Hit; [|done]. simpl.
  intros (new & -> & Hall)%rows_of_map. simpl.
  exists cells, entries. split; [done|]. split; [done|].
  split; [symmetry; by eapply Forall2_length|].
  intros i entry Hi.
  destruct (Forall2_lookup_l _ _ _ _ _ Hall Hi) as ([id value] & Hrow & Hof).
  exists id, value. split; [done|]. split; [|done].
  by eapply row_of_value.
Qed.

Lemma rows_of_first_failure raw_data pre entry post rows e :
  Forall (fun x => ∃ row, HighdimETL.row_of raw_data x = Fine row) pre →
  HighdimETL.row_of raw_data entry = Thrown e →
  HighdimETL.rows_of raw_data (pre ++ entry :: post) rows = Thrown e.
Proof.
  intros Hpre He. revert rows.
  induction Hpre as [|x pre [row Hrow] _ IH]; intros rows; simpl.
  - by rewrite He.
  - rewrite Hrow. simpl. apply IH.
Qed.

(** X24: the first cell that has no row stops [transform] with the
    exception of that cell, and no rows come back. *)
Theorem transform_first_failure raw_data descriptor cells pre entry post e :
  subscript raw_data (VStr "cells") = Fine cells →
  iterate cells = Fine (pre ++ entry :: post) →
  Forall (fun x => ∃ row, HighdimETL.row_of raw_data x = Fine row) pre →
  HighdimETL.row_of raw_data entry = Thrown e →
  HighdimETL.transform raw_data descriptor = Thrown e.
Proof.
  intros Hc Hi Hpre He. unfold HighdimETL.transform. rewrite Hc. simpl.
  rewrite Hi. simpl. by apply rows_of_first_failure.
Qed.

(** X25: for a cell with a list of dimension indexes and raw data with a
    list of patients, the third index picks the patient the way Python
    indexes a list: a cell with fewer than three indexes and an index
    beyond either end of the patients raise IndexError, and a negative
    index within the list counts from its end. *)
Theorem row_of_patient_index raw_data entry dims elements patients :
  subscript entry (VStr "dimensionIndexes") = Fine (VList dims) →
  subscript raw_data (VStr "dimensionElements") = Fine elements →
  subscript elements (VStr "patient") = Fine (VList patients) →
  (length dims < 3 →
   HighdimETL.row_of raw_data entry = Thrown TaskIndexError) ∧
  (∀ n, dims !! 2 = Some (VInt n) →
     (py_index n (length patients) = None →
      HighdimETL.row_of raw_data entry = Thrown TaskIndexError) ∧
     (∀ k patient,
        py_index n (length patients) = Some k →
        patients !! k = Some patient →
        HighdimETL.row_of raw_data entry =
          (id ← subscript patient (VStr "inTrialId");
           value ← subscript entry (VStr "numericValue");
           Fine (id, value))) ∧
     ((- Z.of_nat (length patients) ≤ n < 0)%Z →
      py_index n (length patients) =
        Some (Z.to_nat (Z.of_nat (length patients) + n)))).
Proof.
  intros Hd He Hp. unfold HighdimETL.row_of. rewrite Hd. simpl.
  split.
  - intros Hlen. unfold list_at, py_index. simpl.
    case_decide; [lia | done].
  - intros n Hn.
    assert (list_at dims 2 = Fine (VInt n)) as ->.
    { apply lookup_lt_Some in Hn as Hlt.
      assert (py_index 2 (length dims) = Some 2) as Hidx.
      { unfold py_index. destruct (decide (2 < 0)%Z) as [|_]; [lia|].
        cbv zeta. by rewrite decide_True by lia. }
      unfold list_at. by rewrite Hidx, Hn. }
    simpl. rewrite He. simpl. rewrite Hp. simpl.
    split; [|split].
    + intros Hnone. unfold list_at. by rewrite Hnone.
    + intros k patient Hk Hpat. unfold list_at. by rewrite Hk, Hpat.
    + intros Hneg. unfold py_index.
      destruct (decide (n < 0)%Z) as [_|]; [|lia]. cbv zeta.
      rewrite decide_True by lia. f_equal. lia.
Qed.
End HighdimFacts.

Lemma transform_rows_witness :
  HighdimETL.transform
    (sample_raw_data [sample_cell 1 3; sample_cell (-2) 4]) VNone =
    Fine [(VStr "P2", VFloat 3%Z); (VStr "P1", VFloat 4%Z)] ∧
  ∃ cells entries,
    subscript (sample_raw_data [sample_cell 1 3; sample_cell (-2) 4])
              (VStr "cells") = Fine cells ∧
    iterate cells = Fine entries ∧
    length [(VStr "P2", VFloat 3%Z); (@VStr Z "P1", VFloat 4%Z)] =
      length entries ∧
    ∀ i entry, entries !! i = Some entry →
      ∃ id value,
        [(VStr "P2", VFloat 3%Z); (VStr "P1", VFloat 4%Z)] !! i =
          Some (id, value) ∧
        subscript entry (VStr "numericValue") = Fine value ∧
        HighdimETL.row_of
          (sample_raw_data [sample_cell 1 3; sample_cell (-2) 4]) entry =
          Fine (id, value).
Proof.
  split; [reflexivity|].
  apply (transform_rows
           (sample_raw_data [sample_cell 1 3; sample_cell (-2) 4]) VNone).
  reflexivity.
Defined.

Lemma transform_first_failure_witness :
  subscript
    (sample_raw_data [sample_cell 1 3; cell_without_value; sample_cell 0 4])
    (VStr "cells") =
    Fine (VList [sample_cell 1 3; cell_without_value; sample_cell 0 4]) ∧
  iterate (VList [sample_cell 1 3; cell_without_value; sample_cell 0 4]) =
    Fine ([sample_cell 1 3] ++ cell_without_value :: [sample_cell 0 4]) ∧
  HighdimETL.row_of
    (sample_raw_data [sample_cell 1 3; cell_without_value; sample_cell 0 4])
    cell_without_value = Thrown TaskKeyError ∧
  HighdimETL.transform
    (sample_raw_data [sample_cell 1 3; cell_without_value; sample_cell 0 4])
    VNone = Thrown TaskKeyError.
Proof.
  split; [reflexivity|]. split; [reflexivity|]. split; [reflexivity|].
  apply (transform_first_failure
           (sample_raw_data
              [sample_cell 1 3; cell_without_value; sample_cell 0 4])
           VNone
           (VList [sample_cell 1 3; cell_without_value; sample_cell 0 4])
           [sample_cell 1 3] cell_without_value [sample_cell 0 4]
           TaskKeyError);
    [reflexivity | reflexivity | | reflexivity].
  constructor; [|constructor]. eexists. reflexivity.
Defined.

Lemma row_of_patient_index_witness :
  subscript (sample_cell (-2) 4) (VStr "dimensionIndexes") =
    Fine (VList [VInt 0; VInt 0; VInt (-2)]) ∧
  subscript (sample_raw_data [sample_cell (-2) 4])
            (VStr "dimensionElements") = Fine sample_elements ∧
  subscript sample_elements (VStr "patient") = Fine (VList sample_patients) ∧
  py_index (-2) (length sample_patients) = Some 0 ∧
  HighdimETL.row_of (sample_raw_data [sample_cell (-2) 4])
                    (sample_cell (-2) 4) =
    (id ← subscript (VDict [("inTrialId", VStr "P1")]) (VStr "inTrialId");
     value ← subscript (sample_cell (-2) 4) (VStr "numericValue");
     Fine (id, value)).
Proof.
  split; [reflexivity|]. split; [reflexivity|]. split; [reflexivity|].
  split; [reflexivity|].
  destruct (row_of_patient_index (sample_raw_data [sample_cell (-2) 4])
              (sample_cell (-2) 4) [VInt 0; VInt 0; VInt (-2)]
              sample_elements sample_patients eq_refl eq_refl eq_refl)
    as [_ Hidx].
  destruct (Hidx (-2)%Z eq_refl) as (_ & Hpick & _).
  apply (Hpick 0); reflexivity.
Defined.

(** ** The characters of a text

    A [str] is cut into its characters without loss, and it is indexed
    and iterated by character, whatever the number of bytes of each. *)
Lemma code_points_cons c tl : code_points (String c tl) ≠ [].
Proof.
  destruct tl as [|c' tl']; [done|]. cbn [code_points].
  destruct (continuation c'); [|done].
  by destruct (match tl' with EmptyString => _ | String _ _ => _ end).
Qed.

Lemma code_points_concat s :
  foldr String.append EmptyString (code_points s) = s.
Proof.
  induction s as [|c tl IH]; [done|].
  destruct tl as [|c' tl']; [done|].
  change (code_points (String c (String c' tl'))) with
    (if continuation c' then
       match code_points (String c' tl') with
       | chunk :: rest => String c chunk :: rest
       | [] => [String c EmptyString]
       end
     else String c EmptyString :: code_points (String c' tl')).
  destruct (continuation c').
  - pose proof (code_points_cons c' tl') as Hne.
    destruct (code_points (String c' tl')) as [|chunk rest]; [done|].
    cbn [foldr] in *.
    change (String c chunk +:+ ?t) with (String c (chunk +:+ t)).
    by rewrite IH.
  - cbn [foldr]. by rewrite IH.
Qed.

Example code_points_utf8 : code_points "éa€" = ["é"; "a"; "€"].
Proof. reflexivity. Qed.

Example str_at_character :
  str_at (R:=Z) "éé" 2 = Thrown TaskIndexError ∧
  str_at (R:=Z) "éa" 1 = Fine (VStr "a") ∧
  str_at (R:=Z) "éa" (-2) = Fine (VStr "é") ∧
  iterate (R:=Z) (VStr "éa") = Fine [VStr "é"; VStr "a"] ∧
  py_iter (JStr "éa") = Returned [JStr "é"; JStr "a"].
Proof. repeat split; reflexivity. Qed.

(** A cell whose [dimensionIndexes] is a text of two characters has no
    third one, whatever the patients are. *)
Example row_of_text_indexes :
  HighdimETL.row_of
    (VDict [("dimensionElements",
             VDict [("patient",
                     VDict [("a", VDict [("inTrialId", VStr "P1")])])])])
    (VDict [("dimensionIndexes", VStr "éa"); ("numericValue", VFloat 1%Z)]) =
  Thrown TaskIndexError.
Proof. reflexivity. Qed.
